(** * raspi2raspi: mirroring one Raspberry Pi display onto another

    A shallow embedding of [raspi2raspi.c].  The program is one [main]
    function: option parsing, optional daemonisation with a PID file,
    DispmanX session setup, the mirror loop with its frame pacer, and the
    teardown.  Every call into the C library, the BSD PID-file library and
    the DispmanX vendor library is recorded as an [event]; the values those
    calls return are supplied by an environment, so that [main] is a total
    function from its environment to a trace and an outcome.  Three calls
    enter through their results only and leave no event: [basename],
    [getopt_long] and [atoi]. *)

From Stdlib Require Import ZArith List String Ascii Bool Lia.
Import ListNotations.

Local Open Scope string_scope.
Local Open Scope Z_scope.

(** ** Machine integers *)

Module Int.

(** Two's-complement reduction of a mathematical integer to [int32_t]. *)
Definition wrap_int32 (x : Z) : Z := (x + 2 ^ 31) mod 2 ^ 32 - 2 ^ 31.

(** Reduction to [uint32_t]. *)
Definition wrap_uint32 (x : Z) : Z := x mod 2 ^ 32.

Definition INT32_MIN : Z := - 2 ^ 31.
Definition INT32_MAX : Z := 2 ^ 31 - 1.

Definition in_int32 (x : Z) : Prop := INT32_MIN <= x <= INT32_MAX.

End Int.

(** ** The C library's [atoi]

    [atoi] belongs to the C library, not to the repository: leading white
    space is skipped, an optional sign is read, then decimal digits up to the
    first character that is not one; text without digits yields 0.  A value
    that does not fit an [int] is reduced to 32 bits. *)

Module Libc.

Definition isspace (c : ascii) : bool :=
  let n := Z.of_nat (nat_of_ascii c) in
  (n =? 32) || ((9 <=? n) && (n <=? 13)).

Definition digit_of (c : ascii) : option Z :=
  let n := Z.of_nat (nat_of_ascii c) in
  if (48 <=? n) && (n <=? 57) then Some (n - 48) else None.

Fixpoint skip_spaces (s : string) : string :=
  match s with
  | String c rest => if isspace c then skip_spaces rest else s
  | EmptyString => s
  end.

Fixpoint digits_value (acc : Z) (s : string) : Z :=
  match s with
  | String c rest =>
      match digit_of c with
      | Some d => digits_value (10 * acc + d) rest
      | None => acc
      end
  | EmptyString => acc
  end.

Definition atoi (s : string) : Z :=
  match skip_spaces s with
  | String "-" rest => Int.wrap_int32 (- digits_value 0 rest)
  | String "+" rest => Int.wrap_int32 (digits_value 0 rest)
  | t => Int.wrap_int32 (digits_value 0 t)
  end.

End Libc.

(** ** Constants of the program and of the headers it includes *)

Definition DEFAULT_SOURCE_DISPLAY_NUMBER : Z := 0.
Definition DEFAULT_DESTINATION_DISPLAY_NUMBER : Z := 5.
Definition DEFAULT_FPS : Z := 10.

Definition EXIT_SUCCESS : Z := 0.
Definition EXIT_FAILURE : Z := 1.

Definition SIGINT : Z := 2.
Definition SIGTERM : Z := 15.

Definition LOG_ERR : Z := 3.
Definition LOG_INFO : Z := 6.

Definition NULL : Z := 0.

(** [#define ALIGN_TO_16(x) ((x + 15) & ~15)], on [int32_t] operands. *)
Definition ALIGN_TO_16 (x : Z) : Z :=
  Int.wrap_int32 (Z.land (Int.wrap_int32 (x + 15)) (Z.lnot 15)).

(** ** Events, outcomes and the trace monad *)

Inductive stream : Type := Stdout | Stderr.

Inductive arg : Type :=
| ArgS (s : string)
| ArgZ (z : Z).

(** One constructor per external function the program calls. *)
Inductive event : Type :=
| Fprintf (fp : stream) (format : string) (args : list arg)
| PidfileOpen (path : string) (mode : Z)
| Daemon (nochdir noclose : Z)
| PidfileWrite (pfh : Z)
| PidfileRemove (pfh : Z)
| Openlog (ident : string)
| Closelog
| Signal (signum : Z)
| BcmHostInit
| DisplayOpen (number : Z)
| DisplayGetInfo (display : Z)
| DisplayClose (display : Z)
| MessageLog (isDaemon : bool) (priority : Z) (format : string)
             (args : list arg)
| PerrorLog (isDaemon : bool) (message : string)
| Malloc (length : Z)
| Free (image : Z)
| ResourceCreate (width height : Z)
| ResourceDelete (resource : Z)
| UpdateStart (priority : Z)
| UpdateSubmitSync (update : Z)
| ElementAdd (update display layer resource : Z)
| ElementChangeSource (update element resource : Z)
| ElementRemove (update element : Z)
| Gettimeofday
| Snapshot (display resource : Z)
| ResourceReadData (resource image pitch : Z)
| ResourceWriteData (resource pitch image : Z)
| Usleep (usec : Z).

(** How a computation can stop before it returns: a call of [exit], an
    integer division by zero (undefined behaviour of C), or the end of the
    observed frames while the loop is still live. *)
Inductive halt : Type :=
| Exit (status : Z)
| DivisionByZero
| StillRunning.

Inductive result (A : Type) : Type :=
| Ret (a : A)
| Halt (h : halt).

Arguments Ret {A} a.
Arguments Halt {A} h.

(** A computation: the events it performed, and how it ended. *)
Definition M (A : Type) : Type := (list event * result A)%type.

Definition ret {A : Type} (a : A) : M A := ([], Ret a).

Definition bind {A B : Type} (m : M A) (k : A -> M B) : M B :=
  match m with
  | (tr, Ret a) => let (tr', r) := k a in ((tr ++ tr')%list, r)
  | (tr, Halt h) => (tr, Halt h)
  end.

Notation "x <- m ;; k" := (bind m (fun x => k))
  (at level 61, m at next level, right associativity).
Notation "m ;; k" := (bind m (fun _ => k))
  (at level 61, right associativity).

(** A call whose return value the program ignores. *)
Definition emit (e : event) : M unit := ([e], Ret tt).

(** A call returning [res], the environment's answer. *)
Definition call {A : Type} (e : event) (res : A) : M A := ([e], Ret res).

Definition exit {A : Type} (status : Z) : M A := ([], Halt (Exit status)).

Definition when (c : bool) (m : M unit) : M unit := if c then m else ret tt.

Definition trace {A : Type} (m : M A) : list event := fst m.
Definition outcome {A : Type} (m : M A) : result A := snd m.

(** C integer division: undefined when the divisor is zero, truncating
    otherwise. *)
Definition c_div (a b : Z) : M Z :=
  if b =? 0 then ([], Halt DivisionByZero) else ret (Z.quot a b).

(** ** Functions of [syslogUtilities], which the program includes *)

(** Modelled from the spec: [messageLog] of syslogUtilities.c, a file of the
    repository that is not among the sources.  It writes a single diagnostic
    line, to the console or to syslog when daemonised. *)
Definition messageLog (isDaemon : bool) (priority : Z) (format : string)
    (args : list arg) : M unit :=
  emit (MessageLog isDaemon priority format args).

(** Modelled from the spec: [perrorLog] of syslogUtilities.c; it logs the
    specific cause of a failed library call. *)
Definition perrorLog (isDaemon : bool) (message : string) : M unit :=
  emit (PerrorLog isDaemon message).

(** Modelled from the spec: [exitAndRemovePidFile] of syslogUtilities.c; it
    releases the PID-file lock if one is held (a no-op when no PID file was
    ever opened) and exits with the given status.  Its only arguments are
    the status and the PID-file handle. *)
Definition exitAndRemovePidFile {A : Type} (status : Z) (pfh : Z) : M A :=
  when (negb (pfh =? NULL)) (emit (PidfileRemove pfh)) ;;
  exit status.

(** ** [printUsage] *)

Definition printUsage (fp : stream) (name : string) : M unit :=
  emit (Fprintf fp "\n" []) ;;
  emit (Fprintf fp "Usage: %s <options>\n" [ArgS name]) ;;
  emit (Fprintf fp "\n" []) ;;
  emit (Fprintf fp "    --daemon - start in the background as a daemon\n" []) ;;
  emit (Fprintf fp "    --source <number> - Raspberry Pi display number" []) ;;
  emit (Fprintf fp " (default %d)\n" [ArgZ DEFAULT_SOURCE_DISPLAY_NUMBER]) ;;
  emit (Fprintf fp "    --destination <number> - Raspberry Pi display number"
          []) ;;
  emit (Fprintf fp " (default %d)\n"
          [ArgZ DEFAULT_DESTINATION_DISPLAY_NUMBER]) ;;
  emit (Fprintf fp "    --fps <fps> - set desired frames per second" []) ;;
  emit (Fprintf fp " (default %d frames per second)\n" [ArgZ DEFAULT_FPS]) ;;
  emit (Fprintf fp "    --pidfile <pidfile> - create and lock PID file" []) ;;
  emit (Fprintf fp " (if being run as a daemon)\n" []) ;;
  emit (Fprintf fp "    --help - print usage and exit\n" []) ;;
  emit (Fprintf fp "\n" []).

(** ** [signalHandler] and the run flag *)

(** [volatile bool run = true;] *)
Definition run_init : bool := true.

(** The handler, as a function of the signal number and the flag. *)
Definition signalHandler (signalNumber : Z) (run : bool) : bool :=
  if (signalNumber =? SIGINT) || (signalNumber =? SIGTERM) then false
  else run.

(** ** Option parsing *)

(** The variables [main] sets while it parses its options. *)
Record config : Type := Config {
  fps : Z;
  frameDuration : Z;
  isDaemon : bool;
  sourceDisplayNumber : Z;
  destDisplayNumber : Z;
  pidfile : option string
}.

Definition initial_config : config :=
  {| fps := DEFAULT_FPS;
     frameDuration := Z.quot 1000000 DEFAULT_FPS;
     isDaemon := false;
     sourceDisplayNumber := DEFAULT_SOURCE_DISPLAY_NUMBER;
     destDisplayNumber := DEFAULT_DESTINATION_DISPLAY_NUMBER;
     pidfile := None |}.

(** One answer of [getopt_long] other than -1: the character it returns
    and the text [optarg] points at. *)
Record option_found : Type := Opt {
  opt : ascii;
  optarg : string
}.

Definition is_char (c : ascii) (s : string) : bool :=
  match s with
  | String d EmptyString => Ascii.eqb c d
  | _ => false
  end.

(** The body of the [switch (opt)] statement. *)
Definition parse_option (program : string) (c : config) (o : option_found)
  : M config :=
  if is_char (opt o) "d" then
    ret {| fps := fps c; frameDuration := frameDuration c;
           isDaemon := isDaemon c;
           sourceDisplayNumber := sourceDisplayNumber c;
           destDisplayNumber := Int.wrap_uint32 (Libc.atoi (optarg o));
           pidfile := pidfile c |}
  else if is_char (opt o) "f" then
    let fps' := Libc.atoi (optarg o) in
    if 0 <? fps' then
      d <- c_div 1000000 fps' ;;
      ret {| fps := fps'; frameDuration := d;
             isDaemon := isDaemon c;
             sourceDisplayNumber := sourceDisplayNumber c;
             destDisplayNumber := destDisplayNumber c;
             pidfile := pidfile c |}
    else
      f <- c_div 1000000 (frameDuration c) ;;
      ret {| fps := f; frameDuration := frameDuration c;
             isDaemon := isDaemon c;
             sourceDisplayNumber := sourceDisplayNumber c;
             destDisplayNumber := destDisplayNumber c;
             pidfile := pidfile c |}
  else if is_char (opt o) "h" then
    printUsage Stdout program ;;
    exit EXIT_SUCCESS
  else if is_char (opt o) "p" then
    ret {| fps := fps c; frameDuration := frameDuration c;
           isDaemon := isDaemon c;
           sourceDisplayNumber := sourceDisplayNumber c;
           destDisplayNumber := destDisplayNumber c;
           pidfile := Some (optarg o) |}
  else if is_char (opt o) "s" then
    ret {| fps := fps c; frameDuration := frameDuration c;
           isDaemon := isDaemon c;
           sourceDisplayNumber := Int.wrap_uint32 (Libc.atoi (optarg o));
           destDisplayNumber := destDisplayNumber c;
           pidfile := pidfile c |}
  else if is_char (opt o) "D" then
    ret {| fps := fps c; frameDuration := frameDuration c;
           isDaemon := true;
           sourceDisplayNumber := sourceDisplayNumber c;
           destDisplayNumber := destDisplayNumber c;
           pidfile := pidfile c |}
  else
    printUsage Stderr program ;;
    exit EXIT_FAILURE.

(** The [while ((opt = getopt_long(...)) != -1)] loop, over the answers of
    [getopt_long] in order.  The events are the calls the program makes
    itself: the line that [getopt_long] writes on the error stream on its
    own before it answers ['?'] ([opterr] is left set) is not among
    them. *)
Fixpoint parse_options (program : string) (c : config)
    (opts : list option_found) : M config :=
  match opts with
  | [] => ret c
  | o :: rest => c' <- parse_option program c o ;; parse_options program c' rest
  end.

(** ** What the environment answers *)

(** [struct timeval]. *)
Record timeval : Type := Timeval {
  tv_sec : Z;
  tv_usec : Z
}.

(** The two fields of [DISPMANX_MODEINFO_T] the program reads. *)
Record modeinfo : Type := ModeInfo {
  width : Z;
  height : Z
}.

(** The values returned by the calls made once per run.  Handles and
    pointers are integers, 0 standing for a failed open and for [NULL]. *)
Record environment : Type := Environment {
  pidfile_open_result : Z;
  otherpid : Z;
  daemon_result : Z;
  signal_SIGINT_is_SIG_ERR : bool;
  signal_SIGTERM_is_SIG_ERR : bool;
  source_display_handle : Z;
  source_get_info_result : Z;
  source_modeinfo : modeinfo;
  dest_display_handle : Z;
  dest_get_info_result : Z;
  dest_modeinfo : modeinfo;
  malloc_result : Z;
  source_resource_handle : Z;
  dest_resource_handle : Z;
  setup_update_handle : Z;
  element_handle : Z;
  setup_submit_result : Z;
  signals_before_loop : list Z;
  teardown_update_handle : Z
}.

(** The values returned during one iteration of the mirror loop, and the
    signals handled while it runs. *)
Record frame : Type := Frame {
  frame_start : timeval;
  snapshot_result : Z;
  read_data_result : Z;
  write_data_result : Z;
  update_handle : Z;
  change_source_result : Z;
  submit_result : Z;
  frame_end : timeval;
  signals_delivered : list Z
}.

(** ** Daemonisation and the PID file (lines 198 to 230) *)

Definition lifecycle (program : string) (c : config) (env : environment)
  : M Z :=
  if isDaemon c then
    pfh <- match pidfile c with
           | Some path =>
               pfh <- call (PidfileOpen path 384) (pidfile_open_result env) ;;
               (if pfh =? NULL then
                  emit (Fprintf Stderr "%s is already running %jd\n"
                          [ArgS program; ArgZ (otherpid env)]) ;;
                  exit EXIT_FAILURE
                else ret pfh)
           | None => ret NULL
           end ;;
    r <- call (Daemon 0 0) (daemon_result env) ;;
    when (r =? -1)
      (emit (Fprintf Stderr "daemonize failed\n" []) ;;
       exitAndRemovePidFile EXIT_FAILURE pfh) ;;
    when (negb (pfh =? NULL)) (emit (PidfileWrite pfh)) ;;
    emit (Openlog program) ;;
    ret pfh
  else ret NULL.

(** Installation of the two handlers (lines 234 to 248). *)
Definition install_handlers (c : config) (pfh : Z) (env : environment)
  : M unit :=
  e1 <- call (Signal SIGINT) (signal_SIGINT_is_SIG_ERR env) ;;
  when e1
    (perrorLog (isDaemon c) "installing SIGINT signal handler" ;;
     exitAndRemovePidFile EXIT_FAILURE pfh) ;;
  e2 <- call (Signal SIGTERM) (signal_SIGTERM_is_SIG_ERR env) ;;
  when e2
    (perrorLog (isDaemon c) "installing SIGTERM signal handler" ;;
     exitAndRemovePidFile EXIT_FAILURE pfh).

(** ** Display session setup (lines 252 to 420) *)

Definition bytesPerPixel : Z := 4.

(** [int32_t pitch = bytesPerPixel * ALIGN_TO_16(destInfo.width);] *)
Definition pitch_of (dest_width : Z) : Z :=
  Int.wrap_int32 (bytesPerPixel * ALIGN_TO_16 dest_width).

(** [int32_t length = pitch * destInfo.height;] *)
Definition length_of (dest_width dest_height : Z) : Z :=
  Int.wrap_int32 (pitch_of dest_width * dest_height).

(** The local variables of [main] that outlive the setup. *)
Record session : Type := Session {
  sourceDisplay : Z;
  destDisplay : Z;
  destInfo : modeinfo;
  pitch : Z;
  length : Z;
  image : Z;
  sourceResource : Z;
  destResource : Z;
  element : Z
}.

(** A logged fatal error: [messageLog(..., LOG_ERR, ...)] followed by
    [exitAndRemovePidFile(EXIT_FAILURE, pfh)]. *)
Definition fatal (c : config) (pfh : Z) (message : string) : M unit :=
  messageLog (isDaemon c) LOG_ERR message [] ;;
  exitAndRemovePidFile EXIT_FAILURE pfh.

(** The three calls of [vc_dispmanx_rect_set] only fill local structures
    and leave no event. *)
Definition open_session (c : config) (pfh : Z) (env : environment)
  : M session :=
  emit BcmHostInit ;;
  sourceDisplay <- call (DisplayOpen (sourceDisplayNumber c))
                     (source_display_handle env) ;;
  when (sourceDisplay =? 0) (fatal c pfh "open source display failed") ;;
  result <- call (DisplayGetInfo sourceDisplay) (source_get_info_result env) ;;
  let sourceInfo := source_modeinfo env in
  when (negb (result =? 0))
    (fatal c pfh "getting source display dimensions failed") ;;
  destDisplay <- call (DisplayOpen (destDisplayNumber c))
                   (dest_display_handle env) ;;
  when (destDisplay =? 0) (fatal c pfh "open destination display failed") ;;
  result <- call (DisplayGetInfo destDisplay) (dest_get_info_result env) ;;
  let destInfo := dest_modeinfo env in
  when (negb (result =? 0))
    (fatal c pfh "getting destination display dimensions failed") ;;
  messageLog (isDaemon c) LOG_INFO "copying from [%d] %dx%d to [%d] %dx%d"
    [ArgZ (sourceDisplayNumber c);
     ArgZ (width sourceInfo); ArgZ (height sourceInfo);
     ArgZ (destDisplayNumber c);
     ArgZ (width destInfo); ArgZ (height destInfo)] ;;
  let pitch := pitch_of (width destInfo) in
  let length := length_of (width destInfo) (height destInfo) in
  image <- call (Malloc length) (malloc_result env) ;;
  when (image =? NULL) (fatal c pfh "unable to allocate image buffer") ;;
  sourceResource <- call (ResourceCreate (width destInfo) (height destInfo))
                      (source_resource_handle env) ;;
  destResource <- call (ResourceCreate (width destInfo) (height destInfo))
                    (dest_resource_handle env) ;;
  update <- call (UpdateStart 0) (setup_update_handle env) ;;
  when (update =? 0) (fatal c pfh "display update failed") ;;
  element <- call (ElementAdd update destDisplay 10 destResource)
               (element_handle env) ;;
  when (element =? 0) (fatal c pfh "failed to create DispmanX element") ;;
  _ <- call (UpdateSubmitSync update) (setup_submit_result env) ;;
  ret {| sourceDisplay := sourceDisplay; destDisplay := destDisplay;
         destInfo := destInfo; pitch := pitch; length := length;
         image := image; sourceResource := sourceResource;
         destResource := destResource; element := element |}.

(** ** The mirror loop (lines 430 to 506) *)

(** The [timersub] macro of [<sys/time.h>]. *)
Definition timersub (a b : timeval) : timeval :=
  let sec := tv_sec a - tv_sec b in
  let usec := tv_usec a - tv_usec b in
  if usec <? 0 then {| tv_sec := sec - 1; tv_usec := usec + 1000000 |}
  else {| tv_sec := sec; tv_usec := usec |}.

(** The pacer at the end of the loop body (lines 499 to 505). *)
Definition pace (frameDuration : Z) (elapsed_time : timeval) : M unit :=
  if tv_sec elapsed_time =? 0 then
    if tv_usec elapsed_time <? frameDuration then
      emit (Usleep (frameDuration - tv_usec elapsed_time))
    else ret tt
  else ret tt.

(** One execution of the loop body. *)
Definition mirror_frame (c : config) (pfh : Z) (s : session) (f : frame)
  : M unit :=
  start_time <- call Gettimeofday (frame_start f) ;;
  result <- call (Snapshot (sourceDisplay s) (sourceResource s))
              (snapshot_result f) ;;
  when (negb (result =? 0)) (fatal c pfh "DispmanX snapshot failed") ;;
  result <- call (ResourceReadData (sourceResource s) (image s) (pitch s))
              (read_data_result f) ;;
  when (negb (result =? 0)) (fatal c pfh "DispmanX read data failed") ;;
  result <- call (ResourceWriteData (destResource s) (pitch s) (image s))
              (write_data_result f) ;;
  when (negb (result =? 0)) (fatal c pfh "DispmanX write data failed") ;;
  update <- call (UpdateStart 10) (update_handle f) ;;
  when (update =? 0) (fatal c pfh "display update failed") ;;
  _ <- call (ElementChangeSource update (element s) (destResource s))
         (change_source_result f) ;;
  _ <- call (UpdateSubmitSync update) (submit_result f) ;;
  end_time <- call Gettimeofday (frame_end f) ;;
  pace (frameDuration c) (timersub end_time start_time).

(** The handler runs once for each signal handled, in order of arrival. *)
Definition deliver (signals : list Z) (run : bool) : bool :=
  fold_left (fun r signalNumber => signalHandler signalNumber r) signals run.

(** [while (run) { ... }]: the flag is read at the top of each iteration.
    The frames are those the environment lets the loop execute; when they
    are used up and the flag is still set, the loop is still running. *)
Fixpoint mirror_loop (c : config) (pfh : Z) (s : session) (run : bool)
    (frames : list frame) : M unit :=
  match frames with
  | [] => if run then ([], Halt StillRunning) else ret tt
  | f :: rest =>
      if run then
        mirror_frame c pfh s f ;;
        mirror_loop c pfh s (deliver (signals_delivered f) run) rest
      else ret tt
  end.

(** ** Teardown (lines 510 to 538) *)

Definition teardown (c : config) (pfh : Z) (s : session) (env : environment)
  : M Z :=
  update <- call (UpdateStart 0) (teardown_update_handle env) ;;
  emit (ElementRemove update (element s)) ;;
  emit (UpdateSubmitSync update) ;;
  emit (ResourceDelete (sourceResource s)) ;;
  emit (ResourceDelete (destResource s)) ;;
  emit (DisplayClose (sourceDisplay s)) ;;
  emit (DisplayClose (destDisplay s)) ;;
  emit (Free (image s)) ;;
  messageLog (isDaemon c) LOG_INFO "exiting" [] ;;
  when (isDaemon c) (emit Closelog) ;;
  when (negb (pfh =? NULL)) (emit (PidfileRemove pfh)) ;;
  ret 0.

(** ** [main] *)

(** Everything after the options are parsed. *)
Definition run_configured (program : string) (c : config)
    (env : environment) (frames : list frame) : M Z :=
  pfh <- lifecycle program c env ;;
  install_handlers c pfh env ;;
  s <- open_session c pfh env ;;
  mirror_loop c pfh s (deliver (signals_before_loop env) run_init) frames ;;
  teardown c pfh s env.

(** [program] is [basename(argv[0])]; [opts] are the answers of
    [getopt_long]. *)
Definition main (program : string) (opts : list option_found)
    (env : environment) (frames : list frame) : M Z :=
  c <- parse_options program initial_config opts ;;
  run_configured program c env frames.

(** ** Definitions used to state the properties *)

(** Modelled on the spec's words, for comparison with [ALIGN_TO_16]: the
    width rounded up to the next multiple of 16, [ceil(width/16) * 16]. *)
Definition round_up_16 (w : Z) : Z := 16 * ((w + 15) / 16).

(** The configuration [c] with another value of [fps]. *)
Definition with_fps (c : config) (f : Z) : config :=
  {| fps := f; frameDuration := frameDuration c;
     isDaemon := isDaemon c;
     sourceDisplayNumber := sourceDisplayNumber c;
     destDisplayNumber := destDisplayNumber c;
     pidfile := pidfile c |}.

(** The frame interval agrees with the frames per second. *)
Definition paced (c : config) : Prop :=
  0 < fps c /\ frameDuration c = Z.quot 1000000 (fps c).

(** The run flag seen from outside: either the handler runs for a signal,
    or [main] executes a step of its own, in which it may read the flag. *)
Inductive action : Type :=
| Handle (signalNumber : Z)
| MainStep.

Definition step_run (run : bool) (a : action) : bool :=
  match a with
  | Handle signalNumber => signalHandler signalNumber run
  | MainStep => run
  end.

(** The successive values of the flag along an execution. *)
Fixpoint run_history (run : bool) (acts : list action) : list bool :=
  run ::
  match acts with
  | [] => []
  | a :: rest => run_history (step_run run a) rest
  end.

(** Number of places where a sequence of flag values changes. *)
Fixpoint transitions (h : list bool) : nat :=
  match h with
  | a :: (b :: _) as t => ((if Bool.eqb a b then 0 else 1) + transitions t)%nat
  | _ => 0%nat
  end.

(** The flag values the [while (run)] test reads, one per test. *)
Fixpoint loop_tests (run : bool) (frames : list frame) : list bool :=
  run ::
  match frames with
  | [] => []
  | f :: rest =>
      if run then loop_tests (deliver (signals_delivered f) run) rest else []
  end.

(** Classes of events. *)
Definition display_teardown (e : event) : bool :=
  match e with
  | ElementRemove _ _ | ResourceDelete _ | DisplayClose _ | Free _ => true
  | _ => false
  end.

Definition pidfile_event (e : event) : bool :=
  match e with
  | PidfileOpen _ _ | PidfileWrite _ | PidfileRemove _ => true
  | _ => false
  end.

Definition is_pidfile_open (e : event) : bool :=
  match e with PidfileOpen _ _ => true | _ => false end.

Definition is_pidfile_remove (e : event) : bool :=
  match e with PidfileRemove _ => true | _ => false end.

(** The calls of the teardown sequence, the removal of the PID file
    included. *)
Definition teardown_call (e : event) : bool :=
  display_teardown e || is_pidfile_remove e.

Definition is_error_log (e : event) : bool :=
  match e with
  | MessageLog _ priority _ _ => priority =? LOG_ERR
  | PerrorLog _ _ => true
  | _ => false
  end.

(** The arguments of the [usleep] calls of a computation, in order. *)
Definition sleeps {A : Type} (m : M A) : list Z :=
  flat_map (fun e => match e with Usleep u => [u] | _ => [] end) (trace m).

(** A computation none of whose events is in the class [P]. *)
Definition avoids {A : Type} (P : event -> bool) (m : M A) : Prop :=
  Forall (fun e => P e = false) (trace m).

(** A computation that calls [pidfile_remove] exactly when it exits through
    [exit] holding a PID file, and then once. *)
Definition releases {A : Type} (pfh : Z) (m : M A) : Prop :=
  filter is_pidfile_remove (trace m) =
  match outcome m with
  | Halt (Exit _) => if pfh =? NULL then [] else [PidfileRemove pfh]
  | _ => []
  end.

(** The vendor calls of an iteration all succeed. *)
Definition completes (f : frame) : Prop :=
  snapshot_result f = 0 /\ read_data_result f = 0 /\
  write_data_result f = 0 /\ update_handle f <> 0.

(** A frame with other results for the two calls that follow
    [vc_dispmanx_update_start] in the loop body. *)
Definition with_flip_results (f : frame) (change submit : Z) : frame :=
  {| frame_start := frame_start f;
     snapshot_result := snapshot_result f;
     read_data_result := read_data_result f;
     write_data_result := write_data_result f;
     update_handle := update_handle f;
     change_source_result := change;
     submit_result := submit;
     frame_end := frame_end f;
     signals_delivered := signals_delivered f |}.

(** An environment with another result for the submit call of the setup. *)
Definition with_setup_submit_result (env : environment) (submit : Z)
  : environment :=
  {| pidfile_open_result := pidfile_open_result env;
     otherpid := otherpid env;
     daemon_result := daemon_result env;
     signal_SIGINT_is_SIG_ERR := signal_SIGINT_is_SIG_ERR env;
     signal_SIGTERM_is_SIG_ERR := signal_SIGTERM_is_SIG_ERR env;
     source_display_handle := source_display_handle env;
     source_get_info_result := source_get_info_result env;
     source_modeinfo := source_modeinfo env;
     dest_display_handle := dest_display_handle env;
     dest_get_info_result := dest_get_info_result env;
     dest_modeinfo := dest_modeinfo env;
     malloc_result := malloc_result env;
     source_resource_handle := source_resource_handle env;
     dest_resource_handle := dest_resource_handle env;
     setup_update_handle := setup_update_handle env;
     element_handle := element_handle env;
     setup_submit_result := submit;
     signals_before_loop := signals_before_loop env;
     teardown_update_handle := teardown_update_handle env |}.

(** What [main] does before the teardown, with the variables the teardown
    reads. *)
Definition acquire_from (c : config) (pfh : Z) (env : environment)
    (frames : list frame) : M (config * Z * session) :=
  install_handlers c pfh env ;;
  s <- open_session c pfh env ;;
  mirror_loop c pfh s (deliver (signals_before_loop env) run_init) frames ;;
  ret (c, pfh, s).

Definition acquire (program : string) (opts : list option_found)
    (env : environment) (frames : list frame) : M (config * Z * session) :=
  c <- parse_options program initial_config opts ;;
  pfh <- lifecycle program c env ;;
  acquire_from c pfh env frames.

(** The PID file is held: [pidfile_open] was called and did not return
    [NULL]. *)
Definition pidfile_held (env : environment) (tr : list event) : bool :=
  existsb is_pidfile_open tr && negb (pidfile_open_result env =? NULL).

(** The session a successful setup leaves, in terms of the environment. *)
Definition session_of (env : environment) : session :=
  {| sourceDisplay := source_display_handle env;
     destDisplay := dest_display_handle env;
     destInfo := dest_modeinfo env;
     pitch := pitch_of (width (dest_modeinfo env));
     length := length_of (width (dest_modeinfo env))
                 (height (dest_modeinfo env));
     image := malloc_result env;
     sourceResource := source_resource_handle env;
     destResource := dest_resource_handle env;
     element := element_handle env |}.

(** The frames with other results for the two calls after
    [vc_dispmanx_update_start], chosen frame by frame. *)
Definition with_flip_results_all (change submit : frame -> Z)
    (frames : list frame) : list frame :=
  map (fun f => with_flip_results f (change f) (submit f)) frames.

(** ** Sample runs *)

(** Every call succeeds: a 1920x1080 source, a 1280x720 destination. *)
Definition sample_environment : environment :=
  {| pidfile_open_result := 77;
     otherpid := 0;
     daemon_result := 0;
     signal_SIGINT_is_SIG_ERR := false;
     signal_SIGTERM_is_SIG_ERR := false;
     source_display_handle := 1;
     source_get_info_result := 0;
     source_modeinfo := {| width := 1920; height := 1080 |};
     dest_display_handle := 2;
     dest_get_info_result := 0;
     dest_modeinfo := {| width := 1280; height := 720 |};
     malloc_result := 4096;
     source_resource_handle := 3;
     dest_resource_handle := 4;
     setup_update_handle := 5;
     element_handle := 6;
     setup_submit_result := 0;
     signals_before_loop := [];
     teardown_update_handle := 7 |}.

(** An iteration whose calls succeed and that takes [usec] microseconds,
    across a change of second, while [signals] are handled. *)
Definition sample_frame (usec : Z) (signals : list Z) : frame :=
  {| frame_start := {| tv_sec := 100; tv_usec := 999000 |};
     snapshot_result := 0;
     read_data_result := 0;
     write_data_result := 0;
     update_handle := 8;
     change_source_result := 0;
     submit_result := 0;
     frame_end := {| tv_sec := 101; tv_usec := usec - 1000 |};
     signals_delivered := signals |}.

(** Another instance, process 4242, holds the lock on the PID file. *)
Definition contended_environment : environment :=
  {| pidfile_open_result := NULL;
     otherpid := 4242;
     daemon_result := 0;
     signal_SIGINT_is_SIG_ERR := false;
     signal_SIGTERM_is_SIG_ERR := false;
     source_display_handle := 1;
     source_get_info_result := 0;
     source_modeinfo := {| width := 1920; height := 1080 |};
     dest_display_handle := 2;
     dest_get_info_result := 0;
     dest_modeinfo := {| width := 1280; height := 720 |};
     malloc_result := 4096;
     source_resource_handle := 3;
     dest_resource_handle := 4;
     setup_update_handle := 5;
     element_handle := 6;
     setup_submit_result := 0;
     signals_before_loop := [];
     teardown_update_handle := 7 |}.

(** The same iteration when the snapshot fails. *)
Definition failed_snapshot_frame : frame :=
  {| frame_start := {| tv_sec := 100; tv_usec := 0 |};
     snapshot_result := -1;
     read_data_result := 0;
     write_data_result := 0;
     update_handle := 8;
     change_source_result := 0;
     submit_result := 0;
     frame_end := {| tv_sec := 100; tv_usec := 0 |};
     signals_delivered := [] |}.

(** ** Further conditions on runs and classes of events *)

(** The two signals the handler reacts to. *)
Definition stop_signal (n : Z) : Prop := n = SIGINT \/ n = SIGTERM.

(** Every signal handled during a run, in order of arrival. *)
Definition signals_handled (env : environment) (frames : list frame)
  : list Z :=
  (signals_before_loop env ++ flat_map signals_delivered frames)%list.

(** A timestamp as [gettimeofday] fills it: the microseconds are below one
    second. *)
Definition normal (t : timeval) : Prop := 0 <= tv_usec t < 1000000.

Definition well_timed (f : frame) : Prop :=
  normal (frame_start f) /\ normal (frame_end f).

(** A timestamp in microseconds. *)
Definition microseconds (t : timeval) : Z :=
  tv_sec t * 1000000 + tv_usec t.

(** The calls that [main] makes in the body of its loop only. *)
Definition loop_call (e : event) : bool :=
  match e with
  | Gettimeofday | Snapshot _ _ | ResourceReadData _ _ _
  | ResourceWriteData _ _ _ | ElementChangeSource _ _ _ | Usleep _ => true
  | _ => false
  end.

Definition is_snapshot (e : event) : bool :=
  match e with Snapshot _ _ => true | _ => false end.

(** A [usleep] whose argument is not in the interval from 1 to [d]. *)
Definition sleep_outside (d : Z) (e : event) : bool :=
  match e with
  | Usleep u => negb ((0 <? u) && (u <=? d))
  | _ => false
  end.

(** A line that reports a failure: on the error stream, or logged as an
    error. *)
Definition diagnostic (e : event) : bool :=
  match e with
  | Fprintf Stderr _ _ => true
  | MessageLog _ priority _ _ => priority =? LOG_ERR
  | PerrorLog _ _ => true
  | _ => false
  end.

(** A call that passes on, as 0, a handle or a pointer that [main] tests
    after it obtains it: the two display handles, the image buffer, the
    update handles of the setup and of the loop, the element and the
    PID-file handle. *)
Definition null_handle_use (e : event) : bool :=
  match e with
  | DisplayGetInfo d | DisplayClose d | Snapshot d _ => d =? 0
  | ElementAdd u d _ _ => (u =? 0) || (d =? 0)
  | ElementChangeSource u el _ => (u =? 0) || (el =? 0)
  | ElementRemove _ el => el =? 0
  | ResourceReadData _ img _ | ResourceWriteData _ _ img | Free img =>
      img =? NULL
  | PidfileWrite h => h =? NULL
  | _ => false
  end.

(** A call that detaches the process or uses syslog: [daemon], [openlog],
    [closelog], and a log call made with the daemon flag set. *)
Definition syslog_call (e : event) : bool :=
  match e with
  | Daemon _ _ | Openlog _ | Closelog => true
  | MessageLog d _ _ _ | PerrorLog d _ => d
  | _ => false
  end.

(** A log call whose daemon flag differs from [d]. *)
Definition misdirected_log (d : bool) (e : event) : bool :=
  match e with
  | MessageLog d' _ _ _ | PerrorLog d' _ => negb (Bool.eqb d' d)
  | _ => false
  end.

(** A computation that, when it leaves through [exit], does so with
    [EXIT_FAILURE] after exactly one diagnostic, that prints no diagnostic
    otherwise, and that never divides by zero. *)
Definition fails_loudly {A : Type} (m : M A) : Prop :=
  match outcome m with
  | Halt (Exit status) =>
      status = EXIT_FAILURE /\
      List.length (filter diagnostic (trace m)) = 1%nat
  | Halt DivisionByZero => False
  | _ => filter diagnostic (trace m) = []
  end.

(** Some option has the character [x]. *)
Definition has_option (x : string) (opts : list option_found) : Prop :=
  Exists (fun o => is_char (opt o) x = true) opts.

(** An option character that is none of the six of the [switch]. *)
Definition unrecognised (o : option_found) : Prop :=
  Forall (fun x => is_char (opt o) x = false) ["d"; "f"; "h"; "p"; "s"; "D"].

(** The frame interval is at least 1: [fps] is at most 1000000. *)
Definition slow_enough (c : config) : Prop :=
  0 < fps c <= 1000000 /\ frameDuration c = Z.quot 1000000 (fps c).

(** A call into the DispmanX library or [bcm_host_init]. *)
Definition vendor_call (e : event) : bool :=
  match e with
  | BcmHostInit | DisplayOpen _ | DisplayGetInfo _ | DisplayClose _
  | ResourceCreate _ _ | ResourceDelete _ | UpdateStart _
  | UpdateSubmitSync _ | ElementAdd _ _ _ _ | ElementChangeSource _ _ _
  | ElementRemove _ _ | Snapshot _ _ | ResourceReadData _ _ _
  | ResourceWriteData _ _ _ => true
  | _ => false
  end.

Definition is_pidfile_write (e : event) : bool :=
  match e with PidfileWrite _ => true | _ => false end.

(** The PID file is opened and the process detached: daemon mode, a path,
    and neither [pidfile_open] nor [daemon] fails. *)
Definition daemonised_with_pidfile (c : config) (env : environment) : bool :=
  isDaemon c &&
  match pidfile c with Some _ => true | None => false end &&
  negb (pidfile_open_result env =? NULL) &&
  negb (daemon_result env =? -1).

(** An environment in which the two calls of [vc_dispmanx_resource_create]
    return other handles. *)
Definition with_resource_handles (env : environment) (source dest : Z)
  : environment :=
  {| pidfile_open_result := pidfile_open_result env;
     otherpid := otherpid env;
     daemon_result := daemon_result env;
     signal_SIGINT_is_SIG_ERR := signal_SIGINT_is_SIG_ERR env;
     signal_SIGTERM_is_SIG_ERR := signal_SIGTERM_is_SIG_ERR env;
     source_display_handle := source_display_handle env;
     source_get_info_result := source_get_info_result env;
     source_modeinfo := source_modeinfo env;
     dest_display_handle := dest_display_handle env;
     dest_get_info_result := dest_get_info_result env;
     dest_modeinfo := dest_modeinfo env;
     malloc_result := malloc_result env;
     source_resource_handle := source;
     dest_resource_handle := dest;
     setup_update_handle := setup_update_handle env;
     element_handle := element_handle env;
     setup_submit_result := setup_submit_result env;
     signals_before_loop := signals_before_loop env;
     teardown_update_handle := teardown_update_handle env |}.

(** Two computations end the same way, whatever they return. *)
Definition same_ending {A B : Type} (m : M A) (m' : M B) : Prop :=
  match outcome m, outcome m' with
  | Ret _, Ret _ => True
  | Halt h, Halt h' => h = h'
  | _, _ => False
  end.

(** * Properties *)

(** ** The trace monad *)

Section Monad.

Context {A B : Type}.

Lemma trace_bind (m : M A) (k : A -> M B) :
  trace (bind m k) =
  (trace m ++ match outcome m with
              | Ret a => trace (k a)
              | Halt _ => []
              end)%list.
Proof.
  destruct m as [tr [a | h]]; simpl.
  - destruct (k a); reflexivity.
  - now rewrite app_nil_r.
Qed.

Lemma outcome_bind (m : M A) (k : A -> M B) :
  outcome (bind m k) =
  match outcome m with
  | Ret a => outcome (k a)
  | Halt h => Halt h
  end.
Proof.
  destruct m as [tr [a | h]]; simpl; [destruct (k a) |]; reflexivity.
Qed.

Lemma bind_returns (m : M A) (k : A -> M B) (b : B) :
  outcome (bind m k) = Ret b ->
  exists a, outcome m = Ret a /\ outcome (k a) = Ret b /\
            trace (bind m k) = (trace m ++ trace (k a))%list.
Proof.
  rewrite outcome_bind, trace_bind.
  destruct (outcome m) as [a | h]; [| discriminate].
  intros Hk. now exists a.
Qed.

Lemma bind_halts (m : M A) (k : A -> M B) (h : halt) :
  outcome (bind m k) = Halt h ->
  (outcome m = Halt h /\ trace (bind m k) = trace m) \/
  (exists a, outcome m = Ret a /\ outcome (k a) = Halt h /\
             trace (bind m k) = (trace m ++ trace (k a))%list).
Proof.
  rewrite outcome_bind, trace_bind.
  destruct (outcome m) as [a | h'].
  - intros Hk. right. now exists a.
  - intros [= ->]. left. now rewrite app_nil_r.
Qed.

Lemma avoids_bind (P : event -> bool) (m : M A) (k : A -> M B) :
  avoids P m -> (forall a, avoids P (k a)) -> avoids P (bind m k).
Proof.
  unfold avoids. intros Hm Hk. rewrite trace_bind.
  apply Forall_app. split; [assumption |].
  destruct (outcome m); [apply Hk | constructor].
Qed.

Lemma releases_bind (pfh : Z) (m : M A) (k : A -> M B) :
  releases pfh m -> (forall a, releases pfh (k a)) ->
  releases pfh (bind m k).
Proof.
  unfold releases. intros Hm Hk.
  rewrite trace_bind, outcome_bind, filter_app, Hm.
  destruct (outcome m) as [a | h]; [apply Hk |].
  now rewrite app_nil_r.
Qed.

End Monad.

Lemma avoids_ret {A : Type} (P : event -> bool) (a : A) : avoids P (ret a).
Proof. constructor. Qed.

Lemma avoids_exit {A : Type} (P : event -> bool) (status : Z) :
  avoids P (@exit A status).
Proof. constructor. Qed.

Lemma avoids_emit (P : event -> bool) (e : event) :
  P e = false -> avoids P (emit e).
Proof. intros H. repeat constructor. exact H. Qed.

Lemma avoids_call {A : Type} (P : event -> bool) (e : event) (res : A) :
  P e = false -> avoids P (call e res).
Proof. intros H. repeat constructor. exact H. Qed.

Lemma avoids_when (P : event -> bool) (c : bool) (m : M unit) :
  avoids P m -> avoids P (when c m).
Proof. destruct c; [trivial | constructor]. Qed.

Lemma avoids_filter {A : Type} (P : event -> bool) (m : M A) :
  avoids P m -> filter P (trace m) = [].
Proof.
  unfold avoids. induction (trace m) as [| e tr IH]; [reflexivity |].
  intros H. inversion H; subst. simpl.
  now rewrite H2, IH.
Qed.

Lemma releases_ret {A : Type} (pfh : Z) (a : A) : releases pfh (ret a).
Proof. reflexivity. Qed.

Lemma releases_quiet {A : Type} (pfh : Z) (e : event) (res : A) :
  is_pidfile_remove e = false -> releases pfh (call e res).
Proof. unfold releases. simpl. now intros ->. Qed.

Lemma releases_emit (pfh : Z) (e : event) :
  is_pidfile_remove e = false -> releases pfh (emit e).
Proof. apply releases_quiet. Qed.

Lemma releases_when (pfh : Z) (c : bool) (m : M unit) :
  releases pfh m -> releases pfh (when c m).
Proof. destruct c; [trivial | reflexivity]. Qed.

Lemma releases_exitAndRemovePidFile {A : Type} (pfh status : Z) :
  releases pfh (@exitAndRemovePidFile A status pfh).
Proof.
  unfold releases, exitAndRemovePidFile, NULL.
  destruct (pfh =? 0); reflexivity.
Qed.

Lemma avoids_exitAndRemovePidFile {A : Type} (P : event -> bool)
    (pfh status : Z) :
  (pfh <> NULL -> P (PidfileRemove pfh) = false) ->
  avoids P (@exitAndRemovePidFile A status pfh).
Proof.
  intros H. unfold exitAndRemovePidFile.
  apply avoids_bind; [| intros; apply avoids_exit].
  destruct (pfh =? NULL) eqn:E; simpl; [constructor |].
  apply avoids_emit, H. intros ->. discriminate E.
Qed.

(** ** The run flag *)

Section RunFlag.

Lemma signalHandler_clears (n : Z) (run : bool) :
  signalHandler n run <> run ->
  (n = SIGINT \/ n = SIGTERM) /\ run = true /\ signalHandler n run = false.
Proof.
  unfold signalHandler.
  destruct (n =? SIGINT) eqn:Ei; [| destruct (n =? SIGTERM) eqn:Et]; simpl.
  - apply Z.eqb_eq in Ei. destruct run; intuition congruence.
  - apply Z.eqb_eq in Et. destruct run; intuition congruence.
  - congruence.
Qed.

Lemma signalHandler_false (n : Z) : signalHandler n false = false.
Proof. unfold signalHandler. now destruct (_ || _). Qed.

Lemma step_run_false (a : action) : step_run false a = false.
Proof. destruct a; [apply signalHandler_false | reflexivity]. Qed.

Lemma run_history_false (acts : list action) :
  Forall (eq false) (run_history false acts).
Proof.
  induction acts as [| a rest IH]; simpl.
  - repeat constructor.
  - constructor; [reflexivity |]. now rewrite step_run_false.
Qed.

Lemma transitions_constant (b : bool) (h : list bool) :
  Forall (eq b) h -> transitions h = 0%nat.
Proof.
  induction 1 as [| x t Hx Ht IH]; [reflexivity |].
  destruct Ht as [| y t' Hy Ht']; [reflexivity |].
  subst x y. cbn [transitions]. rewrite Bool.eqb_reflx. exact IH.
Qed.

Lemma transitions_cons (a b : bool) (acts : list action) :
  transitions (a :: run_history b acts) =
  ((if Bool.eqb a b then 0 else 1) + transitions (run_history b acts))%nat.
Proof. destruct acts; reflexivity. Qed.

Lemma transitions_run_history (run : bool) (acts : list action) :
  (transitions (run_history run acts) <= 1)%nat.
Proof.
  revert run. induction acts as [| a rest IH]; intros run; [simpl; lia |].
  change (run_history run (a :: rest))
    with (run :: run_history (step_run run a) rest).
  rewrite transitions_cons.
  destruct (Bool.eqb run (step_run run a)) eqn:E.
  - apply IH.
  - destruct run; [| now rewrite step_run_false in E].
    destruct (step_run true a); [discriminate |].
    now rewrite (transitions_constant false _ (run_history_false rest)).
Qed.

Lemma run_history_never_rises (run : bool) (acts : list action)
    (before after : list bool) :
  run_history run acts = (before ++ false :: after)%list ->
  Forall (eq false) after.
Proof.
  revert run before. induction acts as [| a rest IH]; intros run before.
  - destruct before as [| b [| ? ?]]; simpl; intros [= ]; subst.
    constructor.
  - change (run_history run (a :: rest))
      with (run :: run_history (step_run run a) rest).
    destruct before as [| b before]; simpl.
    + intros [= -> <-]. rewrite step_run_false. apply run_history_false.
    + intros [= _ H]. eapply IH, H.
Qed.

Lemma loop_tests_stop (run : bool) (frames : list frame)
    (before after : list bool) :
  loop_tests run frames = (before ++ false :: after)%list -> after = [].
Proof.
  revert run before. induction frames as [| f rest IH]; intros run before.
  - destruct before as [| b [| ? ?]]; simpl; intros [= ]; subst; reflexivity.
  - destruct run; simpl.
    + destruct before as [| b before]; simpl; [discriminate |].
      intros [= _ H]. eapply IH, H.
    + destruct before as [| b [| ? ?]]; simpl; intros [= ]; subst;
        reflexivity.
Qed.

(** The loop ends only at a test that reads false, all tests before it
    having read true. *)
Lemma mirror_loop_ret_tests (c : config) (pfh : Z) (s : session)
    (run : bool) (frames : list frame) (u : unit) :
  outcome (mirror_loop c pfh s run frames) = Ret u ->
  exists before,
    loop_tests run frames = (before ++ [false])%list /\
    Forall (eq true) before.
Proof.
  revert run. induction frames as [| f rest IH]; intros run.
  - destruct run; simpl; [discriminate |]. intros _. now exists [].
  - destruct run; cbn [mirror_loop loop_tests].
    + intros H. apply bind_returns in H. destruct H as (_ & _ & H & _).
      destruct (IH _ H) as (before & Eq & Hall).
      exists (true :: before). rewrite Eq. split; [reflexivity |].
      now constructor.
    + intros _. now exists [].
Qed.

End RunFlag.

(** C6. The run flag starts true; the handler changes it only for SIGINT or
    SIGTERM and only from true to false; a step of [main] leaves it as it
    is.  Hence along every execution the flag changes at most once, no
    value after a false one is true, and the loop test that reads false is
    the last one. *)
Theorem run_flag_monotone :
  run_init = true /\
  (forall n run, signalHandler n run <> run ->
     (n = SIGINT \/ n = SIGTERM) /\ run = true /\
     signalHandler n run = false) /\
  (forall run, step_run run MainStep = run) /\
  (forall acts, (transitions (run_history run_init acts) <= 1)%nat) /\
  (forall acts before after,
     run_history run_init acts = (before ++ false :: after)%list ->
     Forall (eq false) after) /\
  (forall env frames before after,
     loop_tests (deliver (signals_before_loop env) run_init) frames =
       (before ++ false :: after)%list ->
     after = []).
Proof.
  split; [reflexivity |].
  split; [exact signalHandler_clears |].
  split; [reflexivity |].
  split; [intros; apply transitions_run_history |].
  split; [intros *; apply run_history_never_rises |].
  intros env frames before after. apply loop_tests_stop.
Qed.

Lemma run_flag_monotone_witness :
  signalHandler SIGTERM true = false /\
  Forall (eq false) [false; false].
Proof.
  destruct run_flag_monotone as (_ & Hh & _ & _ & Hm & _).
  split.
  - apply (Hh SIGTERM true). discriminate.
  - apply (Hm [MainStep; Handle SIGTERM; Handle 1; Handle SIGINT] [true; true]).
    reflexivity.
Defined.

(** ** The frame pacer *)

Lemma pace_sleeps (d : Z) (e : timeval) :
  tv_sec e = 0 -> tv_usec e < d ->
  pace d e = ([Usleep (d - tv_usec e)], Ret tt).
Proof.
  intros Hs Hu. unfold pace.
  rewrite Hs. simpl.
  apply Z.ltb_lt in Hu. now rewrite Hu.
Qed.

Lemma pace_proceeds (d : Z) (e : timeval) :
  ~ (tv_sec e = 0 /\ tv_usec e < d) -> pace d e = ([], Ret tt).
Proof.
  intros H. unfold pace.
  destruct (tv_sec e =? 0) eqn:Es; [| reflexivity].
  destruct (tv_usec e <? d) eqn:Eu; [| reflexivity].
  exfalso. apply H. split; [now apply Z.eqb_eq | now apply Z.ltb_lt].
Qed.

Lemma mirror_frame_completes (c : config) (pfh : Z) (s : session) (f : frame) :
  completes f ->
  mirror_frame c pfh s f =
  (call Gettimeofday (frame_start f) ;;
   call (Snapshot (sourceDisplay s) (sourceResource s)) 0 ;;
   call (ResourceReadData (sourceResource s) (image s) (pitch s)) 0 ;;
   call (ResourceWriteData (destResource s) (pitch s) (image s)) 0 ;;
   call (UpdateStart 10) (update_handle f) ;;
   call (ElementChangeSource (update_handle f) (element s) (destResource s))
     (change_source_result f) ;;
   call (UpdateSubmitSync (update_handle f)) (submit_result f) ;;
   call Gettimeofday (frame_end f) ;;
   pace (frameDuration c) (timersub (frame_end f) (frame_start f))).
Proof.
  intros (Hs & Hr & Hw & Hu). unfold mirror_frame.
  rewrite Hs, Hr, Hw. apply Z.eqb_neq in Hu.
  cbn. rewrite Hu. cbn.
  destruct (pace _ _). reflexivity.
Qed.

(** C7. In an iteration that reaches its end timestamp, with the elapsed
    time obtained by [timersub] from the end and start timestamps: when its
    seconds are zero and its microseconds are below the frame interval, the
    iteration calls [usleep] once, with the frame interval minus the elapsed
    microseconds; in every other case it does not sleep. *)
Theorem frame_sleeps_the_remainder (c : config) (pfh : Z) (s : session)
    (f : frame) :
  completes f ->
  let elapsed_time := timersub (frame_end f) (frame_start f) in
  (tv_sec elapsed_time = 0 /\ tv_usec elapsed_time < frameDuration c ->
   sleeps (mirror_frame c pfh s f) =
     [frameDuration c - tv_usec elapsed_time]) /\
  (~ (tv_sec elapsed_time = 0 /\ tv_usec elapsed_time < frameDuration c) ->
   sleeps (mirror_frame c pfh s f) = []).
Proof.
  intros Hc elapsed_time. rewrite (mirror_frame_completes c pfh s f Hc).
  fold elapsed_time. split.
  - intros [Hs Hu]. rewrite (pace_sleeps _ _ Hs Hu). reflexivity.
  - intros H. rewrite (pace_proceeds _ _ H). reflexivity.
Qed.

Lemma frame_sleeps_the_remainder_witness :
  sleeps (mirror_frame initial_config NULL
            (Session 1 2 (ModeInfo 1280 720) 5120 3686400 4096 3 4 6)
            (sample_frame 5000 [])) = [95000] /\
  sleeps (mirror_frame initial_config NULL
            (Session 1 2 (ModeInfo 1280 720) 5120 3686400 4096 3 4 6)
            (sample_frame 100000 [])) = [].
Proof.
  split.
  - apply (frame_sleeps_the_remainder initial_config NULL _
             (sample_frame 5000 [])).
    + repeat split; discriminate.
    + split; reflexivity.
  - apply (frame_sleeps_the_remainder initial_config NULL _
             (sample_frame 100000 [])).
    + repeat split; discriminate.
    + intros [_ H]. vm_compute in H. discriminate.
Defined.

(** ** The pixel buffer *)

Section Geometry.

Lemma wrap_int32_small (x : Z) :
  Int.in_int32 x -> Int.wrap_int32 x = x.
Proof.
  unfold Int.in_int32, Int.INT32_MIN, Int.INT32_MAX, Int.wrap_int32.
  intros H. rewrite Z.mod_small; lia.
Qed.

Lemma wrap_int32_mod (x k : Z) :
  (k | 2 ^ 32) -> 0 < k -> (k | 2 ^ 31) ->
  Int.wrap_int32 x mod k = x mod k.
Proof.
  intros [q Hq] Hk [p Hp]. unfold Int.wrap_int32.
  rewrite (Z.mod_eq (x + 2 ^ 31) (2 ^ 32)) by lia.
  rewrite Hq.
  replace (x + 2 ^ 31 - q * k * ((x + 2 ^ 31) / (q * k)) - 2 ^ 31)
    with (x + (- q * ((x + 2 ^ 31) / (q * k))) * k) by ring.
  apply Z.mod_add. lia.
Qed.

Lemma land_lnot_15 (x : Z) : Z.land x (Z.lnot 15) = 16 * (x / 16).
Proof.
  rewrite <- Z.ldiff_land.
  change 15 with (Z.ones 4).
  rewrite Z.ldiff_ones_r by lia.
  rewrite Z.shiftr_div_pow2, Z.shiftl_mul_pow2 by lia.
  change (2 ^ 4) with 16. ring.
Qed.

Lemma ALIGN_TO_16_round_up (w : Z) :
  0 <= w -> round_up_16 w <= Int.INT32_MAX ->
  ALIGN_TO_16 w = round_up_16 w.
Proof.
  unfold ALIGN_TO_16, round_up_16, Int.INT32_MAX. intros Hw Hb.
  assert (Hd : 16 * ((w + 15) / 16) <= w + 15)
    by (apply Z.mul_div_le; lia).
  assert (Hu : w <= 16 * ((w + 15) / 16)).
  { pose proof (Z.mod_pos_bound (w + 15) 16 ltac:(lia)).
    pose proof (Z.div_mod (w + 15) 16 ltac:(lia)). lia. }
  destruct (Z_le_gt_dec (w + 15) (2 ^ 31 - 1)) as [Hs | Hl].
  - rewrite (wrap_int32_small (w + 15))
      by (unfold Int.in_int32, Int.INT32_MIN, Int.INT32_MAX; lia).
    rewrite land_lnot_15. apply wrap_int32_small.
    unfold Int.in_int32, Int.INT32_MIN, Int.INT32_MAX. lia.
  - exfalso.
    assert (2 ^ 31 <= 16 * ((w + 15) / 16)); [| lia].
    change (2 ^ 31) with (16 * 134217728).
    apply Z.mul_le_mono_nonneg_l; [lia |].
    apply Z.div_le_lower_bound; lia.
Qed.

Lemma ALIGN_TO_16_mod (w : Z) : ALIGN_TO_16 w mod 16 = 0.
Proof.
  unfold ALIGN_TO_16.
  rewrite wrap_int32_mod; [| now exists (2 ^ 28) | lia | now exists (2 ^ 27)].
  rewrite land_lnot_15, Z.mul_comm. apply Z.mod_mul. lia.
Qed.

Lemma pitch_of_mod_64 (w : Z) : pitch_of w mod 64 = 0.
Proof.
  unfold pitch_of, bytesPerPixel.
  rewrite wrap_int32_mod; [| now exists (2 ^ 26) | lia | now exists (2 ^ 25)].
  pose proof (ALIGN_TO_16_mod w) as H.
  apply Z.mod_divide in H; [| lia]. destruct H as [q ->].
  replace (4 * (q * 16)) with (q * 64) by ring.
  apply Z.mod_mul. lia.
Qed.

End Geometry.

(** C4, as the code has it.  For a destination geometry with non-negative
    width and height whose stride and buffer length fit the 32-bit integers
    the program computes them in, the row stride is 4 times the width
    rounded up to the next multiple of 16 and the buffer length is the
    stride times the height; the stride is a multiple of 64 for every
    width. *)
Theorem buffer_geometry (w h : Z) :
  0 <= w -> 0 <= h ->
  4 * round_up_16 w <= Int.INT32_MAX ->
  4 * round_up_16 w * h <= Int.INT32_MAX ->
  pitch_of w = 4 * round_up_16 w /\
  length_of w h = 4 * round_up_16 w * h /\
  (forall w', pitch_of w' mod 64 = 0).
Proof.
  intros Hw Hh Hp Hl.
  assert (Hr : 0 <= round_up_16 w).
  { unfold round_up_16. apply Z.mul_nonneg_nonneg; [lia |].
    apply Z.div_pos; lia. }
  assert (Ep : pitch_of w = 4 * round_up_16 w).
  { unfold pitch_of, bytesPerPixel.
    rewrite ALIGN_TO_16_round_up by lia.
    apply wrap_int32_small.
    unfold Int.in_int32, Int.INT32_MIN. lia. }
  split; [exact Ep |]. split; [| exact pitch_of_mod_64].
  unfold length_of. rewrite Ep. apply wrap_int32_small.
  unfold Int.in_int32, Int.INT32_MIN. nia.
Qed.

Lemma buffer_geometry_witness :
  pitch_of 1366 = 4 * round_up_16 1366 /\
  length_of 1366 768 = 4 * round_up_16 1366 * 768 /\
  (forall w', pitch_of w' mod 64 = 0).
Proof.
  apply (buffer_geometry 1366 768); vm_compute; discriminate.
Defined.

(** C4, as the spec has it, fails where the 32-bit product overflows: for a
    width and a height of 65536 the length the program computes is not
    [4 * 65536 * 65536]. *)
Lemma buffer_geometry_overflow :
  0 <= 65536 /\
  length_of 65536 65536 <> 4 * round_up_16 65536 * 65536.
Proof. split; [lia | vm_compute; discriminate]. Qed.

(** ** Option parsing *)

Section Parsing.

Variable program : string.

Lemma parse_options_app (c : config) (opts1 opts2 : list option_found) :
  parse_options program c (opts1 ++ opts2) =
  (c' <- parse_options program c opts1 ;; parse_options program c' opts2).
Proof.
  revert c. induction opts1 as [| o rest IH]; intros c; simpl.
  - destruct (parse_options program c opts2). reflexivity.
  - destruct (parse_option program c o) as [tr [c1 | h]]; simpl;
      [| reflexivity].
    rewrite IH.
    destruct (parse_options program c1 rest) as [tr1 [c2 | h]]; simpl.
    + destruct (parse_options program c2 opts2).
      now rewrite app_assoc.
    + reflexivity.
Qed.

Lemma parse_option_fps_positive (c : config) (s : string) :
  0 < Libc.atoi s ->
  parse_option program c (Opt "f" s) =
  ret {| fps := Libc.atoi s;
         frameDuration := Z.quot 1000000 (Libc.atoi s);
         isDaemon := isDaemon c;
         sourceDisplayNumber := sourceDisplayNumber c;
         destDisplayNumber := destDisplayNumber c;
         pidfile := pidfile c |}.
Proof.
  intros H. unfold parse_option, c_div. cbn.
  destruct (0 <? Libc.atoi s) eqn:E; [| apply Z.ltb_ge in E; lia].
  destruct (Libc.atoi s =? 0) eqn:E0; [apply Z.eqb_eq in E0; lia |].
  reflexivity.
Qed.

Lemma parse_option_fps_nonpositive (c : config) (s : string) :
  Libc.atoi s <= 0 -> frameDuration c <> 0 ->
  parse_option program c (Opt "f" s) =
  ret (with_fps c (Z.quot 1000000 (frameDuration c))).
Proof.
  intros H Hd. unfold parse_option, c_div. cbn.
  destruct (0 <? Libc.atoi s) eqn:E; [apply Z.ltb_lt in E; lia |].
  apply Z.eqb_neq in Hd. rewrite Hd. reflexivity.
Qed.

Lemma frame_interval_stable (f : Z) :
  0 < f -> 1000000 / f <> 0 ->
  0 < 1000000 / (1000000 / f) /\
  1000000 / (1000000 / (1000000 / f)) = 1000000 / f.
Proof.
  intros Hf Hd.
  assert (H0 : 0 <= 1000000 / f) by (apply Z.div_pos; lia).
  assert (Hpos : 0 < 1000000 / f) by lia.
  assert (Hle : 1000000 / f <= 1000000)
    by (apply Z.div_le_upper_bound; nia).
  assert (Hf' : f <= 1000000 / (1000000 / f)).
  { apply Z.div_le_lower_bound; [lia |].
    rewrite Z.mul_comm. apply Z.mul_div_le. lia. }
  split; [lia |].
  apply Z.le_antisymm.
  - apply Z.div_le_compat_l; lia.
  - apply Z.div_le_lower_bound; [lia |].
    rewrite Z.mul_comm. apply Z.mul_div_le. lia.
Qed.

Lemma parse_option_paced (c c' : config) (o : option_found) :
  paced c -> outcome (parse_option program c o) = Ret c' -> paced c'.
Proof.
  intros [Hf Hd]. unfold parse_option.
  destruct (is_char (opt o) "d"); [intros [= <-]; now split |].
  destruct (is_char (opt o) "f").
  - destruct (0 <? Libc.atoi (optarg o)) eqn:E.
    + apply Z.ltb_lt in E. unfold c_div.
      destruct (Libc.atoi (optarg o) =? 0); [discriminate |].
      intros [= <-]. now split.
    + unfold c_div.
      destruct (frameDuration c =? 0) eqn:E0; [discriminate |].
      apply Z.eqb_neq in E0. intros [= <-]. unfold paced. simpl.
      assert (Hd' : frameDuration c = 1000000 / fps c)
        by (rewrite Hd; apply Z.quot_div_nonneg; lia).
      assert (Hpos : 0 < frameDuration c).
      { assert (0 <= 1000000 / fps c) by (apply Z.div_pos; lia). lia. }
      destruct (frame_interval_stable (fps c) Hf) as [H1 H2];
        [now rewrite <- Hd' |].
      rewrite <- Hd' in H1, H2.
      rewrite (Z.quot_div_nonneg 1000000 (frameDuration c)) by lia.
      rewrite (Z.quot_div_nonneg 1000000 (1000000 / frameDuration c))
        by lia.
      split; [exact H1 | now rewrite H2].
  - destruct (is_char (opt o) "h"); [discriminate |].
    destruct (is_char (opt o) "p"); [intros [= <-]; now split |].
    destruct (is_char (opt o) "s"); [intros [= <-]; now split |].
    destruct (is_char (opt o) "D"); [intros [= <-]; now split |].
    discriminate.
Qed.

Lemma parse_options_paced (opts : list option_found) (c c' : config) :
  paced c -> outcome (parse_options program c opts) = Ret c' -> paced c'.
Proof.
  revert c. induction opts as [| o rest IH]; intros c Hc; simpl.
  - now intros [= <-].
  - intros H. fold (bind (parse_option program c o)
                      (fun c1 => parse_options program c1 rest)) in H.
    apply bind_returns in H. destruct H as (c1 & H1 & H2 & _).
    eapply IH; [| exact H2]. eapply parse_option_paced; eassumption.
Qed.

Lemma paced_initial : paced initial_config.
Proof. split; [reflexivity | reflexivity]. Qed.

(** Parsing prints only with [fprintf], and only when it stops. *)
Lemma parse_option_ret (c c' : config) (o : option_found) :
  outcome (parse_option program c o) = Ret c' ->
  trace (parse_option program c o) = [].
Proof.
  unfold parse_option, c_div.
  repeat match goal with
         | |- context [if ?b then _ else _] => destruct b
         end; simpl; try discriminate; reflexivity.
Qed.

Lemma parse_options_ret (opts : list option_found) (c c' : config) :
  outcome (parse_options program c opts) = Ret c' ->
  parse_options program c opts = ([], Ret c').
Proof.
  revert c. induction opts as [| o rest IH]; intros c; simpl.
  - now intros [= <-].
  - intros H.
    change (outcome (bind (parse_option program c o)
                       (fun c1 => parse_options program c1 rest)) = Ret c')
      in H.
    apply bind_returns in H. destruct H as (c1 & H1 & H2 & _).
    pose proof (parse_option_ret _ _ _ H1) as Ht.
    destruct (parse_option program c o) as [tr r]. simpl in *. subst.
    now rewrite (IH _ H2).
Qed.

Lemma avoids_printUsage (P : event -> bool) (fp : stream) (name : string) :
  (forall fp format args, P (Fprintf fp format args) = false) ->
  avoids P (printUsage fp name).
Proof. intros H. unfold avoids. simpl. repeat constructor; apply H. Qed.

Lemma avoids_parse_option (P : event -> bool) (c : config)
    (o : option_found) :
  (forall fp format args, P (Fprintf fp format args) = false) ->
  avoids P (parse_option program c o).
Proof.
  intros H. unfold parse_option, c_div.
  repeat match goal with
         | |- context [if ?b then _ else _] => destruct b
         end;
    try (apply avoids_bind; [now apply avoids_printUsage |
                             intros; apply avoids_exit]);
    constructor.
Qed.

Lemma avoids_parse_options (P : event -> bool) (opts : list option_found)
    (c : config) :
  (forall fp format args, P (Fprintf fp format args) = false) ->
  avoids P (parse_options program c opts).
Proof.
  intros H. revert c. induction opts as [| o rest IH]; intros c; simpl.
  - constructor.
  - apply avoids_bind; [now apply avoids_parse_option | intros; apply IH].
Qed.

Lemma parse_option_foreground (c c' : config) (o : option_found) :
  is_char (opt o) "D" = false -> isDaemon c = false ->
  outcome (parse_option program c o) = Ret c' -> isDaemon c' = false.
Proof.
  intros HD Hc. unfold parse_option, c_div. rewrite HD.
  repeat match goal with
         | |- context [if ?b then _ else _] => destruct b
         end; simpl; try discriminate; intros [= <-]; exact Hc.
Qed.

Lemma parse_options_foreground (opts : list option_found) (c c' : config) :
  Forall (fun o => is_char (opt o) "D" = false) opts ->
  isDaemon c = false ->
  outcome (parse_options program c opts) = Ret c' -> isDaemon c' = false.
Proof.
  intros Hall. revert c. induction Hall as [| o rest Ho Hrest IH];
    intros c Hc; simpl.
  - now intros [= <-].
  - intros H.
    change (outcome (bind (parse_option program c o)
                       (fun c1 => parse_options program c1 rest)) = Ret c')
      in H.
    apply bind_returns in H. destruct H as (c1 & H1 & H2 & _).
    eapply IH; [| exact H2]. eapply parse_option_foreground; eassumption.
Qed.

End Parsing.

(** C3. After the options are parsed, a value of [fps] greater than 0 has
    the frame interval [1000000 / fps] microseconds, the division being
    that of C on integers; this covers the default (no [--fps] option) and
    a positive [--fps] argument, which sets [fps] to that argument. *)
Theorem frame_interval_of_fps (program : string) (opts : list option_found)
    (c : config) :
  outcome (parse_options program initial_config opts) = Ret c ->
  (0 < fps c -> frameDuration c = Z.quot 1000000 (fps c)) /\
  (forall s, 0 < Libc.atoi s ->
     exists c',
       parse_options program initial_config (opts ++ [Opt "f" s]) =
         ([], Ret c') /\
       fps c' = Libc.atoi s /\
       frameDuration c' = Z.quot 1000000 (Libc.atoi s)).
Proof.
  intros H. split.
  - intros _. eapply parse_options_paced; [apply paced_initial | exact H].
  - intros s Hs. eexists. split; [| split].
    + rewrite parse_options_app, (parse_options_ret _ _ _ _ H).
      simpl. rewrite (parse_option_fps_positive program c s Hs). reflexivity.
    + reflexivity.
    + reflexivity.
Qed.

Lemma frame_interval_of_fps_witness :
  frameDuration initial_config = Z.quot 1000000 (fps initial_config) /\
  exists c',
    parse_options "raspi2raspi" initial_config ([] ++ [Opt "f" "25"]) =
      ([], Ret c') /\
    fps c' = Libc.atoi "25" /\
    frameDuration c' = Z.quot 1000000 (Libc.atoi "25").
Proof.
  destruct (frame_interval_of_fps "raspi2raspi" [] initial_config eq_refl)
    as [Hd Hf].
  split.
  - apply Hd. reflexivity.
  - apply (Hf "25"). reflexivity.
Defined.

(** C1, as the code has it.  When the argument of [--fps] is zero, negative
    or malformed, and the frame interval in force is positive, the option
    leaves the frame interval as it is (100000 microseconds by default) and
    sets [fps] to 1000000 divided by it; an iteration that ends within the
    frame interval then sleeps for the rest of it, as for a positive
    [fps]. *)
Theorem nonpositive_fps_keeps_frame_interval (program : string) (c : config)
    (s : string) (pfh : Z) (sess : session) (f : frame) :
  Libc.atoi s <= 0 -> 0 < frameDuration c -> completes f ->
  let c' := with_fps c (Z.quot 1000000 (frameDuration c)) in
  let elapsed_time := timersub (frame_end f) (frame_start f) in
  parse_option program c (Opt "f" s) = ret c' /\
  frameDuration c' = frameDuration c /\
  (tv_sec elapsed_time = 0 /\ tv_usec elapsed_time < frameDuration c ->
   sleeps (mirror_frame c' pfh sess f) =
     [frameDuration c - tv_usec elapsed_time]).
Proof.
  intros Hs Hd Hc c' elapsed_time.
  split; [apply parse_option_fps_nonpositive; lia |].
  split; [reflexivity |].
  intros [H0 Hu]. rewrite (mirror_frame_completes c' pfh sess f Hc).
  fold elapsed_time. change (frameDuration c') with (frameDuration c).
  rewrite (pace_sleeps _ _ H0 Hu). reflexivity.
Qed.

Lemma nonpositive_fps_keeps_frame_interval_witness :
  parse_option "raspi2raspi" initial_config (Opt "f" "-3") =
    ret (with_fps initial_config 10) /\
  frameDuration (with_fps initial_config 10) = 100000 /\
  sleeps (mirror_frame (with_fps initial_config 10) NULL
            (Session 1 2 (ModeInfo 1280 720) 5120 3686400 4096 3 4 6)
            (sample_frame 5000 [])) = [95000].
Proof.
  destruct (nonpositive_fps_keeps_frame_interval "raspi2raspi" initial_config
              "-3" NULL
              (Session 1 2 (ModeInfo 1280 720) 5120 3686400 4096 3 4 6)
              (sample_frame 5000 []))
    as (Hp & Hd & Hsl).
  - vm_compute. discriminate.
  - reflexivity.
  - repeat split; discriminate.
  - split; [exact Hp |]. split; [exact Hd |].
    apply Hsl. split; reflexivity.
Defined.

(** C1, as the spec has it, fails for [--fps 0]: the frame interval stays
    100000 microseconds and an iteration that took 5000 microseconds sleeps
    95000. *)
Lemma fps_zero_still_sleeps :
  Libc.atoi "0" <= 0 /\
  sleeps (main "raspi2raspi" [Opt "f" "0"] sample_environment
            [sample_frame 5000 [SIGTERM]]) = [95000].
Proof. split; [vm_compute; discriminate | reflexivity]. Qed.

(** How an option makes the program exit: [-h] after the usage text on the
    standard output, with status 0; a character that is none of the six
    after the usage text on the error stream, with status 1. *)
Lemma parse_option_exit (program : string) (c : config) (o : option_found)
    (status : Z) :
  outcome (parse_option program c o) = Halt (Exit status) ->
  (is_char (opt o) "h" = true /\ status = EXIT_SUCCESS /\
   trace (parse_option program c o) = trace (printUsage Stdout program)) \/
  (Forall (fun x => is_char (opt o) x = false) ["d"; "f"; "h"; "p"; "s"; "D"]
   /\ status = EXIT_FAILURE /\
   trace (parse_option program c o) = trace (printUsage Stderr program)).
Proof.
  unfold parse_option, c_div.
  destruct (is_char (opt o) "d") eqn:Ed; [discriminate |].
  destruct (is_char (opt o) "f") eqn:Ef.
  { destruct (0 <? _); [destruct (_ =? 0) | destruct (_ =? 0)];
      discriminate. }
  destruct (is_char (opt o) "h") eqn:Eh.
  { intros [= <-]. left. repeat split. }
  destruct (is_char (opt o) "p") eqn:Ep; [discriminate |].
  destruct (is_char (opt o) "s") eqn:Es; [discriminate |].
  destruct (is_char (opt o) "D") eqn:ED; [discriminate |].
  intros [= <-]. right. repeat split. repeat constructor; assumption.
Qed.

(** C9 at [--fps 2000000 --fps 0].  The first option sets the frame interval
    to [1000000 / 2000000 = 0]; the second then divides 1000000 by it.  The
    program stops in the parsing loop, without usage text and without a
    call of [exit]. *)
Theorem fps_zero_after_fast_fps_divides_by_zero (program : string)
    (env : environment) (frames : list frame) :
  main program [Opt "f" "2000000"; Opt "f" "0"] env frames =
  ([], Halt DivisionByZero).
Proof. reflexivity. Qed.

(** ** The phases of [main] *)

Ltac release :=
  repeat first
    [ apply releases_ret
    | apply releases_when
    | apply releases_emit; reflexivity
    | apply releases_quiet; reflexivity
    | apply releases_exitAndRemovePidFile
    | apply releases_bind; [| intros ?]
    | progress unfold fatal, messageLog, perrorLog ].

Section Phases.

Variables (c : config) (pfh : Z) (env : environment).

(** A class of events with no call of the setup and of the loop in it,
    nor the one call [exitAndRemovePidFile] can make. *)
Variable P : event -> bool.
Hypothesis P_remove : pfh <> NULL -> P (PidfileRemove pfh) = false.
Hypothesis P_other : forall e, pidfile_event e = false ->
                               display_teardown e = false -> P e = false.

Ltac avoid_P :=
  repeat first
    [ apply avoids_ret
    | apply avoids_exit
    | apply avoids_when
    | apply avoids_emit; apply P_other; reflexivity
    | apply avoids_call; apply P_other; reflexivity
    | apply avoids_exitAndRemovePidFile; exact P_remove
    | apply avoids_bind; [| intros ?]
    | progress unfold fatal, messageLog, perrorLog ].

Lemma avoids_install_handlers : avoids P (install_handlers c pfh env).
Proof. unfold install_handlers. avoid_P. Qed.

Lemma avoids_open_session : avoids P (open_session c pfh env).
Proof. unfold open_session. avoid_P. Qed.

Lemma avoids_mirror_frame (s : session) (f : frame) :
  avoids P (mirror_frame c pfh s f).
Proof. unfold mirror_frame. avoid_P. Qed.

Lemma avoids_mirror_loop (s : session) (run : bool) (frames : list frame) :
  avoids P (mirror_loop c pfh s run frames).
Proof.
  revert run. induction frames as [| f rest IH]; intros run; simpl;
    destruct run; try constructor.
  apply avoids_bind; [apply avoids_mirror_frame | intros; apply IH].
Qed.

Lemma avoids_acquire_from (frames : list frame) :
  avoids P (acquire_from c pfh env frames).
Proof.
  unfold acquire_from.
  apply avoids_bind; [apply avoids_install_handlers | intros _].
  apply avoids_bind; [apply avoids_open_session | intros s].
  apply avoids_bind; [apply avoids_mirror_loop | intros _].
  apply avoids_ret.
Qed.

Lemma releases_install_handlers : releases pfh (install_handlers c pfh env).
Proof. unfold install_handlers. release. Qed.

Lemma releases_open_session : releases pfh (open_session c pfh env).
Proof. unfold open_session. release. Qed.

Lemma releases_mirror_frame (s : session) (f : frame) :
  releases pfh (mirror_frame c pfh s f).
Proof. unfold mirror_frame. release. Qed.

Lemma releases_mirror_loop (s : session) (run : bool)
    (frames : list frame) :
  releases pfh (mirror_loop c pfh s run frames).
Proof.
  revert run. induction frames as [| f rest IH]; intros run; simpl;
    destruct run; try reflexivity.
  apply releases_bind; [apply releases_mirror_frame | intros; apply IH].
Qed.

Lemma releases_acquire_from (frames : list frame) :
  releases pfh (acquire_from c pfh env frames).
Proof.
  unfold acquire_from.
  apply releases_bind; [apply releases_install_handlers | intros _].
  apply releases_bind; [apply releases_open_session | intros s].
  apply releases_bind; [apply releases_mirror_loop | intros _].
  apply releases_ret.
Qed.

Lemma open_session_ret (s : session) :
  outcome (open_session c pfh env) = Ret s -> s = session_of env.
Proof.
  unfold open_session, fatal, messageLog, exitAndRemovePidFile, when.
  unfold call, emit, exit, ret, bind, outcome.
  repeat match goal with
         | |- context [if ?b then _ else _] => destruct b; simpl
         end;
    try discriminate; intros [= <-]; reflexivity.
Qed.

Lemma acquire_from_ret (frames : list frame) (x : config * Z * session) :
  outcome (acquire_from c pfh env frames) = Ret x ->
  x = (c, pfh, session_of env).
Proof.
  unfold acquire_from. intros H.
  apply bind_returns in H. destruct H as (_ & _ & H & _).
  apply bind_returns in H. destruct H as (s & Hs & H & _).
  apply bind_returns in H. destruct H as (_ & _ & H & _).
  apply open_session_ret in Hs. subst s.
  now injection H as <-.
Qed.

End Phases.

(** ** [main] as acquisition followed by teardown *)

Lemma bind_assoc {A B C : Type} (m : M A) (k : A -> M B) (g : B -> M C) :
  bind (bind m k) g = bind m (fun a => bind (k a) g).
Proof.
  destruct m as [tr [a | h]]; simpl; [| reflexivity].
  destruct (k a) as [tr' [b | h]]; simpl; [| reflexivity].
  destruct (g b). now rewrite app_assoc.
Qed.

Lemma bind_ret_l {A B : Type} (a : A) (k : A -> M B) : bind (ret a) k = k a.
Proof. unfold bind, ret. now destruct (k a). Qed.

Lemma bind_ext {A B : Type} (m : M A) (k k' : A -> M B) :
  (forall a, k a = k' a) -> bind m k = bind m k'.
Proof.
  intros H. destruct m as [tr [a | h]]; simpl; [now rewrite H | reflexivity].
Qed.

Lemma main_acquire_teardown (program : string) (opts : list option_found)
    (env : environment) (frames : list frame) :
  main program opts env frames =
  (x <- acquire program opts env frames ;;
   let '(c, pfh, s) := x in teardown c pfh s env).
Proof.
  unfold main, acquire, run_configured, acquire_from.
  rewrite bind_assoc. apply bind_ext; intros c.
  rewrite bind_assoc. apply bind_ext; intros pfh.
  rewrite bind_assoc. apply bind_ext; intros _.
  rewrite bind_assoc. apply bind_ext; intros s.
  rewrite bind_assoc. apply bind_ext; intros _.
  now rewrite bind_ret_l.
Qed.

Lemma teardown_eq (c : config) (pfh : Z) (s : session) (env : environment) :
  teardown c pfh s env =
  ([UpdateStart 0;
    ElementRemove (teardown_update_handle env) (element s);
    UpdateSubmitSync (teardown_update_handle env);
    ResourceDelete (sourceResource s); ResourceDelete (destResource s);
    DisplayClose (sourceDisplay s); DisplayClose (destDisplay s);
    Free (image s);
    MessageLog (isDaemon c) LOG_INFO "exiting" []]
   ++ (if isDaemon c then [Closelog] else [])
   ++ (if pfh =? NULL then [] else [PidfileRemove pfh]),
   Ret 0)%list.
Proof.
  unfold teardown, NULL. destruct (isDaemon c), (pfh =? 0); reflexivity.
Qed.

Lemma main_returns (program : string) (opts : list option_found)
    (env : environment) (frames : list frame) (status : Z) :
  outcome (main program opts env frames) = Ret status ->
  exists c pfh s,
    outcome (acquire program opts env frames) = Ret (c, pfh, s) /\
    status = 0 /\
    trace (main program opts env frames) =
    (trace (acquire program opts env frames) ++
     trace (teardown c pfh s env))%list.
Proof.
  rewrite main_acquire_teardown. intros H.
  apply bind_returns in H. destruct H as ([[c pfh] s] & Ha & Ht & Htr).
  exists c, pfh, s. rewrite teardown_eq in Ht.
  repeat split; [assumption | now injection Ht | assumption].
Qed.

Lemma main_halts (program : string) (opts : list option_found)
    (env : environment) (frames : list frame) (h : halt) :
  outcome (main program opts env frames) = Halt h ->
  outcome (acquire program opts env frames) = Halt h /\
  trace (main program opts env frames) =
  trace (acquire program opts env frames).
Proof.
  rewrite main_acquire_teardown. intros H.
  apply bind_halts in H. destruct H as [H | ([[c pfh] s] & _ & Ht & _)].
  - exact H.
  - rewrite teardown_eq in Ht. discriminate.
Qed.

Lemma avoids_existsb {A : Type} (P : event -> bool) (m : M A) :
  avoids P m -> existsb P (trace m) = false.
Proof.
  unfold avoids. induction 1 as [| e tr He _ IH]; [reflexivity |].
  simpl. now rewrite He.
Qed.

Lemma pidfile_event_classes (e : event) :
  pidfile_event e = false ->
  is_pidfile_open e = false /\ is_pidfile_remove e = false.
Proof. destruct e; simpl; intros H; (discriminate || now split). Qed.

(** ** The PID file *)

Ltac run_monad :=
  cbv [bind when emit call exit ret trace outcome fst snd app negb
       existsb filter is_pidfile_open is_pidfile_remove orb andb].

Section PidFile.

Variables (program : string) (env : environment).

Lemma lifecycle_foreground (c : config) :
  isDaemon c = false -> lifecycle program c env = ret NULL.
Proof. unfold lifecycle. now intros ->. Qed.

Lemma avoids_lifecycle (c : config) :
  avoids display_teardown (lifecycle program c env).
Proof.
  unfold lifecycle, exitAndRemovePidFile, NULL.
  destruct (isDaemon c); [| constructor].
  destruct (pidfile c) as [path |]; simpl.
  - destruct (pidfile_open_result env =? 0) eqn:E; simpl;
      [repeat constructor |].
    rewrite E. destruct (daemon_result env =? -1); repeat constructor.
  - destruct (daemon_result env =? -1); repeat constructor.
Qed.

(** [lifecycle] returns the handle of the PID file it holds, or [NULL];
    when it makes the program exit it has released what it held. *)
Lemma lifecycle_pidfile (c : config) :
  let m := lifecycle program c env in
  match outcome m with
  | Ret pfh =>
      filter is_pidfile_remove (trace m) = [] /\
      pidfile_held env (trace m) = negb (pfh =? NULL) /\
      (pfh <> NULL -> pfh = pidfile_open_result env)
  | Halt (Exit _) =>
      filter is_pidfile_remove (trace m) =
      if pidfile_held env (trace m)
      then [PidfileRemove (pidfile_open_result env)] else []
  | Halt _ => False
  end.
Proof.
  unfold lifecycle, pidfile_held, exitAndRemovePidFile, NULL.
  destruct (isDaemon c); [| now repeat split].
  destruct (pidfile c) as [path |]; run_monad.
  - destruct (pidfile_open_result env =? 0) eqn:E; run_monad;
      [reflexivity |].
    destruct (daemon_result env =? -1); run_monad; rewrite E; run_monad;
      [reflexivity |].
    rewrite E. now repeat split.
  - destruct (daemon_result env =? -1); run_monad; [reflexivity |].
    now repeat split.
Qed.

Lemma acquire_display (opts : list option_found) (frames : list frame) :
  avoids display_teardown (acquire program opts env frames).
Proof.
  unfold acquire.
  apply avoids_bind; [now apply avoids_parse_options | intros c].
  apply avoids_bind; [apply avoids_lifecycle | intros pfh].
  apply avoids_acquire_from; [reflexivity |].
  intros e _ H. exact H.
Qed.

(** The discipline of the PID file before the teardown. *)
Lemma acquire_pidfile (opts : list option_found) (frames : list frame) :
  let m := acquire program opts env frames in
  match outcome m with
  | Ret (c, pfh, s) =>
      s = session_of env /\
      filter is_pidfile_remove (trace m) = [] /\
      pidfile_held env (trace m) = negb (pfh =? NULL) /\
      (pfh <> NULL -> pfh = pidfile_open_result env)
  | Halt (Exit _) =>
      filter is_pidfile_remove (trace m) =
      if pidfile_held env (trace m)
      then [PidfileRemove (pidfile_open_result env)] else []
  | Halt _ => True
  end.
Proof.
  unfold acquire. cbv zeta.
  pose proof (avoids_parse_options program pidfile_event opts initial_config
                (fun _ _ _ => eq_refl)) as Hp.
  assert (Hpo : avoids is_pidfile_open
                  (parse_options program initial_config opts)).
  { eapply Forall_impl; [| exact Hp].
    intros e He. now apply pidfile_event_classes. }
  assert (Hpr : avoids is_pidfile_remove
                  (parse_options program initial_config opts)).
  { eapply Forall_impl; [| exact Hp].
    intros e He. now apply pidfile_event_classes. }
  apply avoids_existsb in Hpo. apply avoids_filter in Hpr.
  rewrite trace_bind, outcome_bind.
  destruct (outcome (parse_options program initial_config opts))
    as [c | h].
  2:{ rewrite app_nil_r. unfold pidfile_held. rewrite Hpo, Hpr.
      now destruct h. }
  rewrite trace_bind, outcome_bind.
  pose proof (lifecycle_pidfile c) as Hl. cbv zeta in Hl.
  unfold pidfile_held in *.
  rewrite !filter_app, !existsb_app, Hpo, Hpr. simpl.
  destruct (outcome (lifecycle program c env)) as [pfh | h].
  2:{ rewrite !app_nil_r, orb_false_r.
      destruct h; [exact Hl | exact I | exact I]. }
  destruct Hl as (Hr & Hh & Heq).
  pose proof (releases_acquire_from c pfh env frames) as Ha.
  pose proof (avoids_acquire_from c pfh env is_pidfile_open
                (fun _ => eq_refl)
                (fun e He _ => proj1 (pidfile_event_classes e He))
                frames) as Hao.
  apply avoids_existsb in Hao. unfold releases in Ha.
  rewrite Hr, Hao, Ha, orb_false_r. simpl.
  destruct (outcome (acquire_from c pfh env frames))
    as [[[c' pfh'] s] | [st | |]] eqn:Eo.
  - apply acquire_from_ret in Eo. injection Eo as -> -> ->.
    repeat split; assumption.
  - rewrite Hh. destruct (pfh =? NULL) eqn:En; simpl; [reflexivity |].
    rewrite <- Heq; [reflexivity |]. intros ->. discriminate En.
  - exact I.
  - exact I.
Qed.

End PidFile.

(** ** Teardown on the exit paths *)

Lemma pidfile_held_app (env : environment) (t1 t2 : list event) :
  existsb is_pidfile_open t2 = false ->
  pidfile_held env (t1 ++ t2) = pidfile_held env t1.
Proof.
  intros H. unfold pidfile_held. now rewrite existsb_app, H, orb_false_r.
Qed.

Lemma filter_teardown_call (l : list event) :
  filter display_teardown l = [] ->
  filter teardown_call l = filter is_pidfile_remove l.
Proof.
  induction l as [| e l IH]; [reflexivity |].
  cbn [filter]. unfold teardown_call at 1.
  destruct (display_teardown e); [discriminate |].
  intros H. cbn [orb]. now rewrite (IH H).
Qed.

(** C2, as the code has it.  When [main] returns, it returns 0 and the
    teardown calls were made once each, in this order: the element is
    removed, the two resources are deleted, the two displays are closed,
    the buffer is freed, and then, last, the PID file is removed if it is
    held.  When the program leaves through [exit], none of the display
    teardown calls was made; the PID file is removed, once, if it is
    held. *)
Theorem teardown_by_exit_path (program : string) (opts : list option_found)
    (env : environment) (frames : list frame) :
  let m := main program opts env frames in
  let released :=
    if pidfile_held env (trace m)
    then [PidfileRemove (pidfile_open_result env)] else [] in
  (forall status, outcome m = Ret status ->
     status = 0 /\
     filter display_teardown (trace m) =
       [ElementRemove (teardown_update_handle env) (element_handle env);
        ResourceDelete (source_resource_handle env);
        ResourceDelete (dest_resource_handle env);
        DisplayClose (source_display_handle env);
        DisplayClose (dest_display_handle env);
        Free (malloc_result env)] /\
     filter is_pidfile_remove (trace m) = released /\
     filter teardown_call (trace m) =
       ([ElementRemove (teardown_update_handle env) (element_handle env);
         ResourceDelete (source_resource_handle env);
         ResourceDelete (dest_resource_handle env);
         DisplayClose (source_display_handle env);
         DisplayClose (dest_display_handle env);
         Free (malloc_result env)] ++ released)%list) /\
  (forall status, outcome m = Halt (Exit status) ->
     filter display_teardown (trace m) = [] /\
     filter is_pidfile_remove (trace m) = released /\
     filter teardown_call (trace m) = released).
Proof.
  cbv zeta. split; intros status H.
  - apply main_returns in H. destruct H as (c & pfh & s & Ha & -> & ->).
    pose proof (acquire_pidfile program env opts frames) as Hp.
    cbv zeta in Hp. rewrite Ha in Hp. destruct Hp as (-> & Hr & Hh & Heq).
    pose proof (avoids_filter _ _ (acquire_display program env opts frames))
      as Hd.
    pose proof (filter_teardown_call _ Hd) as Hc. rewrite Hr in Hc.
    split; [reflexivity |].
    rewrite teardown_eq. cbn [trace fst].
    rewrite !filter_app, Hd, Hr, Hc, pidfile_held_app, Hh.
    + split; [| split].
      * destruct (isDaemon c), (pfh =? NULL); reflexivity.
      * destruct (isDaemon c), (pfh =? NULL) eqn:En; simpl;
          try reflexivity;
          (rewrite <- Heq; [reflexivity | intros ->; discriminate En]).
      * destruct (isDaemon c), (pfh =? NULL) eqn:En; simpl;
          try reflexivity;
          (rewrite <- Heq; [reflexivity | intros ->; discriminate En]).
    + destruct (isDaemon c), (pfh =? NULL); reflexivity.
  - apply main_halts in H. destruct H as (Ha & ->).
    pose proof (acquire_pidfile program env opts frames) as Hp.
    cbv zeta in Hp. rewrite Ha in Hp.
    pose proof (avoids_filter _ _ (acquire_display program env opts frames))
      as Hd.
    split; [exact Hd |]. split; [exact Hp |].
    now rewrite (filter_teardown_call _ Hd).
Qed.

Lemma teardown_by_exit_path_witness :
  filter teardown_call
    (trace (main "raspi2raspi" [Opt "D" ""; Opt "p" "/tmp/x.pid"]
              sample_environment [sample_frame 5000 [SIGINT]])) =
    ([ElementRemove 7 6; ResourceDelete 3; ResourceDelete 4;
      DisplayClose 1; DisplayClose 2; Free 4096] ++ [PidfileRemove 77])%list
  /\
  filter teardown_call
    (trace (main "raspi2raspi" [Opt "D" ""; Opt "p" "/tmp/x.pid"]
              sample_environment [failed_snapshot_frame])) =
    [PidfileRemove 77].
Proof.
  split.
  - apply (proj1 (teardown_by_exit_path "raspi2raspi"
                    [Opt "D" ""; Opt "p" "/tmp/x.pid"]
                    sample_environment [sample_frame 5000 [SIGINT]]) 0).
    reflexivity.
  - apply (proj2 (teardown_by_exit_path "raspi2raspi"
                    [Opt "D" ""; Opt "p" "/tmp/x.pid"]
                    sample_environment [failed_snapshot_frame])
             EXIT_FAILURE).
    reflexivity.
Defined.

(** C2, as the spec has it, fails on a fatal path: when the first snapshot
    fails, with both displays open, the buffer allocated, both resources
    and the element created, the program logs and exits with status 1
    without any of the teardown calls. *)
Lemma snapshot_failure_skips_teardown :
  main "raspi2raspi" [] sample_environment [failed_snapshot_frame] =
  ([Signal 2; Signal 15; BcmHostInit; DisplayOpen 0; DisplayGetInfo 1;
    DisplayOpen 5; DisplayGetInfo 2;
    MessageLog false 6 "copying from [%d] %dx%d to [%d] %dx%d"
      [ArgZ 0; ArgZ 1920; ArgZ 1080; ArgZ 5; ArgZ 1280; ArgZ 720];
    Malloc 3686400; ResourceCreate 1280 720; ResourceCreate 1280 720;
    UpdateStart 0; ElementAdd 5 2 10 4; UpdateSubmitSync 5;
    Gettimeofday; Snapshot 1 3;
    MessageLog false 3 "DispmanX snapshot failed" []],
   Halt (Exit 1)) /\
  filter display_teardown
    (trace (main "raspi2raspi" [] sample_environment
              [failed_snapshot_frame])) = [].
Proof. split; reflexivity. Qed.

(** ** Failures in the flip *)

Lemma mirror_frame_flip_results (c : config) (pfh : Z) (s : session)
    (f : frame) (change submit : Z) :
  mirror_frame c pfh s (with_flip_results f change submit) =
  mirror_frame c pfh s f.
Proof. reflexivity. Qed.

Lemma mirror_loop_flip_results (c : config) (pfh : Z) (s : session)
    (change submit : frame -> Z) (frames : list frame) (run : bool) :
  mirror_loop c pfh s run (with_flip_results_all change submit frames) =
  mirror_loop c pfh s run frames.
Proof.
  revert run. induction frames as [| f rest IH]; intros run; simpl;
    [reflexivity |].
  destruct run; [| reflexivity].
  rewrite mirror_frame_flip_results. apply bind_ext. intros _. apply IH.
Qed.

Lemma open_session_submit_result (c : config) (pfh : Z) (env : environment)
    (submit : Z) :
  open_session c pfh (with_setup_submit_result env submit) =
  open_session c pfh env.
Proof. reflexivity. Qed.

(** C5, as the code has it.  In an iteration whose snapshot, read and write
    succeed, a failure of [vc_dispmanx_update_start] is fatal: the program
    logs "display update failed" as an error and exits with status 1,
    removing the PID file if it holds one.  What the re-pointing of the
    element's source and the synchronous submits return, in the loop and
    at setup, is not looked at: the run is the same whatever they
    return. *)
Theorem update_start_failure_is_fatal (c : config) (pfh : Z) (s : session)
    (f : frame) (rest : list frame) :
  snapshot_result f = 0 -> read_data_result f = 0 ->
  write_data_result f = 0 -> update_handle f = 0 ->
  mirror_loop c pfh s true (f :: rest) =
    ([Gettimeofday;
      Snapshot (sourceDisplay s) (sourceResource s);
      ResourceReadData (sourceResource s) (image s) (pitch s);
      ResourceWriteData (destResource s) (pitch s) (image s);
      UpdateStart 10;
      MessageLog (isDaemon c) LOG_ERR "display update failed" []]
     ++ (if pfh =? NULL then [] else [PidfileRemove pfh]),
     Halt (Exit EXIT_FAILURE))%list /\
  EXIT_FAILURE <> 0 /\
  (forall program opts env frames change submit setup_submit,
     main program opts (with_setup_submit_result env setup_submit)
       (with_flip_results_all change submit frames) =
     main program opts env frames).
Proof.
  intros Hs Hr Hw Hu. split; [| split; [discriminate |]].
  - cbn [mirror_loop]. unfold mirror_frame, fatal, messageLog.
    unfold exitAndRemovePidFile, NULL.
    rewrite Hs, Hr, Hw, Hu. destruct (pfh =? 0); reflexivity.
  - intros program opts env frames change submit setup_submit.
    unfold main. apply bind_ext. intros c0.
    unfold run_configured.
    change (lifecycle program c0 (with_setup_submit_result env setup_submit))
      with (lifecycle program c0 env).
    apply bind_ext. intros pfh0.
    change (install_handlers c0 pfh0
              (with_setup_submit_result env setup_submit))
      with (install_handlers c0 pfh0 env).
    apply bind_ext. intros _.
    rewrite open_session_submit_result. apply bind_ext. intros s0.
    change (signals_before_loop (with_setup_submit_result env setup_submit))
      with (signals_before_loop env).
    rewrite mirror_loop_flip_results. reflexivity.
Qed.

Lemma update_start_failure_is_fatal_witness :
  mirror_loop initial_config NULL (session_of sample_environment) true
    [Frame (Timeval 100 0) 0 0 0 0 0 0 (Timeval 100 0) []] =
  ([Gettimeofday; Snapshot 1 3; ResourceReadData 3 4096 5120;
    ResourceWriteData 4 5120 4096; UpdateStart 10;
    MessageLog false 3 "display update failed" []],
   Halt (Exit 1)).
Proof.
  apply (update_start_failure_is_fatal initial_config NULL
           (session_of sample_environment)
           (Frame (Timeval 100 0) 0 0 0 0 0 0 (Timeval 100 0) []) []);
    reflexivity.
Defined.

(** C5, as the spec has it, fails for the calls whose result is dropped:
    with the submit of the setup, the re-pointing and the submit of the
    iteration all returning -1, the run logs no error and returns 0. *)
Lemma flip_failures_are_ignored :
  outcome (main "raspi2raspi" []
             (with_setup_submit_result sample_environment (-1))
             [with_flip_results (sample_frame 200000 [SIGTERM]) (-1) (-1)])
    = Ret 0 /\
  existsb is_error_log
    (trace (main "raspi2raspi" []
              (with_setup_submit_result sample_environment (-1))
              [with_flip_results (sample_frame 200000 [SIGTERM]) (-1) (-1)]))
    = false.
Proof. split; reflexivity. Qed.

(** ** The PID file of a second instance, and of a foreground run *)

(** C8. In daemon mode with a PID-file path, when [pidfile_open] returns
    [NULL] because another instance holds the lock, the program calls
    nothing but [pidfile_open] and one [fprintf] on the error stream, whose
    arguments are the program's name and the other process's ID, and exits
    with status 1: it has not called [daemon] and has opened no display. *)
Theorem second_instance_fails_fast (program : string)
    (opts : list option_found) (env : environment) (frames : list frame)
    (c : config) (path : string) :
  outcome (parse_options program initial_config opts) = Ret c ->
  isDaemon c = true -> pidfile c = Some path ->
  pidfile_open_result env = NULL ->
  main program opts env frames =
    ([PidfileOpen path 384;
      Fprintf Stderr "%s is already running %jd\n"
        [ArgS program; ArgZ (otherpid env)]],
     Halt (Exit EXIT_FAILURE)) /\
  EXIT_FAILURE <> 0.
Proof.
  intros Hc Hd Hp Ho. split; [| discriminate].
  unfold main. rewrite (parse_options_ret _ _ _ _ Hc).
  change (@pair (list event) (result config) [] (Ret c)) with (ret c).
  rewrite bind_ret_l.
  unfold run_configured, lifecycle. rewrite Hd, Hp, Ho. reflexivity.
Qed.

Lemma second_instance_fails_fast_witness :
  main "raspi2raspi" [Opt "p" "/tmp/x.pid"; Opt "D" ""]
    contended_environment [sample_frame 5000 []] =
    ([PidfileOpen "/tmp/x.pid" 384;
      Fprintf Stderr "%s is already running %jd\n"
        [ArgS "raspi2raspi"; ArgZ 4242]],
     Halt (Exit 1)) /\
  1 <> 0.
Proof.
  apply (second_instance_fails_fast "raspi2raspi"
           [Opt "p" "/tmp/x.pid"; Opt "D" ""] contended_environment
           [sample_frame 5000 []]
           (Config 10 100000 true 0 5 (Some "/tmp/x.pid")) "/tmp/x.pid");
    reflexivity.
Defined.

Lemma avoids_bind_outcome {A B : Type} (P : event -> bool) (m : M A)
    (k : A -> M B) :
  avoids P m -> (forall a, outcome m = Ret a -> avoids P (k a)) ->
  avoids P (bind m k).
Proof.
  unfold avoids. intros Hm Hk. rewrite trace_bind.
  apply Forall_app. split; [assumption |].
  destruct (outcome m); [now apply Hk | constructor].
Qed.

Lemma avoids_teardown_foreground (c : config) (s : session)
    (env : environment) :
  avoids pidfile_event (teardown c NULL s env).
Proof.
  unfold avoids. rewrite teardown_eq.
  destruct (isDaemon c); repeat constructor.
Qed.

Lemma avoids_run_foreground (program : string) (c : config)
    (env : environment) (frames : list frame) :
  isDaemon c = false ->
  avoids pidfile_event (run_configured program c env frames).
Proof.
  intros Hc. unfold run_configured.
  rewrite (lifecycle_foreground program env c Hc), bind_ret_l.
  assert (Hn : NULL <> NULL -> pidfile_event (PidfileRemove NULL) = false)
    by (intros H; now contradiction H).
  assert (Ho : forall e, pidfile_event e = false ->
                         display_teardown e = false ->
                         pidfile_event e = false) by trivial.
  apply avoids_bind; [now apply avoids_install_handlers | intros _].
  apply avoids_bind; [now apply avoids_open_session | intros s].
  apply avoids_bind; [now apply avoids_mirror_loop | intros _].
  apply avoids_teardown_foreground.
Qed.

(** C10. When no option asks for daemon mode, whatever [--pidfile] options
    are given, the run calls none of [pidfile_open], [pidfile_write] and
    [pidfile_remove], on any path; the PID-file handle is [NULL] from the
    start. *)
Theorem pidfile_ignored_in_foreground (program : string)
    (opts : list option_found) (env : environment) (frames : list frame) :
  Forall (fun o => is_char (opt o) "D" = false) opts ->
  avoids pidfile_event (main program opts env frames) /\
  (forall c, outcome (parse_options program initial_config opts) = Ret c ->
             lifecycle program c env = ret NULL).
Proof.
  intros Hopts.
  assert (Hf : forall c,
             outcome (parse_options program initial_config opts) = Ret c ->
             isDaemon c = false).
  { intros c. now apply parse_options_foreground. }
  split.
  - unfold main. apply avoids_bind_outcome.
    + now apply avoids_parse_options.
    + intros c Hc. apply avoids_run_foreground, Hf, Hc.
  - intros c Hc. apply lifecycle_foreground, Hf, Hc.
Qed.

Lemma pidfile_ignored_in_foreground_witness :
  avoids pidfile_event
    (main "raspi2raspi" [Opt "p" "/tmp/x.pid"; Opt "f" "5"]
       sample_environment
       [sample_frame 5000 []; sample_frame 250000 [SIGTERM]]).
Proof.
  apply (pidfile_ignored_in_foreground "raspi2raspi"
           [Opt "p" "/tmp/x.pid"; Opt "f" "5"] sample_environment
           [sample_frame 5000 []; sample_frame 250000 [SIGTERM]]).
  repeat constructor.
Defined.

(** * Further properties *)

(** ** What the options decide *)

Section Options.

Variable program : string.

Lemma is_char_exclusive (a : ascii) (x y : ascii) :
  x <> y -> is_char a (String x "") = true -> is_char a (String y "") = false.
Proof.
  simpl. intros Hxy Hx. apply Ascii.eqb_eq in Hx. subst a.
  now apply Ascii.eqb_neq.
Qed.

(** The parsing loop from any configuration: when it leaves through
    [exit], one option caused it, and the usage text is all it printed. *)
Lemma parse_options_exit (opts : list option_found) (c : config)
    (status : Z) :
  outcome (parse_options program c opts) = Halt (Exit status) ->
  (status = EXIT_SUCCESS /\
   trace (parse_options program c opts) = trace (printUsage Stdout program) /\
   has_option "h" opts) \/
  (status = EXIT_FAILURE /\
   trace (parse_options program c opts) = trace (printUsage Stderr program) /\
   Exists unrecognised opts).
Proof.
  revert c. induction opts as [| o rest IH]; intros c; [discriminate |].
  cbn [parse_options]. intros H. destruct (bind_halts _ _ _ H)
    as [[Ho Ht] | (c1 & Ho & Hr & Ht)]; rewrite Ht.
  - destruct (parse_option_exit program c o status Ho)
      as [(Hh & Hs & Hu) | (Hn & Hs & Hu)].
    + left. repeat split; [assumption | assumption |].
      now apply Exists_cons_hd.
    + right. repeat split; [assumption | assumption |].
      now apply Exists_cons_hd.
  - rewrite (parse_option_ret program c c1 o Ho). cbn [app].
    destruct (IH c1 Hr) as [(Hs & Hu & He) | (Hs & Hu & He)].
    + left. repeat split; [assumption | assumption |].
      now apply Exists_cons_tl.
    + right. repeat split; [assumption | assumption |].
      now apply Exists_cons_tl.
Qed.

(** One option: the daemon flag is set by [-D] and by nothing else, and is
    never cleared; the PID-file path is set by [-p] and by nothing else. *)
Lemma parse_option_flags (c c' : config) (o : option_found) :
  outcome (parse_option program c o) = Ret c' ->
  isDaemon c' = isDaemon c || is_char (opt o) "D" /\
  pidfile c' = if is_char (opt o) "p" then Some (optarg o) else pidfile c.
Proof.
  unfold parse_option, c_div.
  destruct (is_char (opt o) "d") eqn:Ed.
  { intros [= <-]. cbn [isDaemon pidfile].
    rewrite (is_char_exclusive _ "d" "D"), (is_char_exclusive _ "d" "p")
      by (assumption || discriminate).
    now rewrite orb_false_r. }
  destruct (is_char (opt o) "f") eqn:Ef.
  { rewrite (is_char_exclusive _ "f" "D"), (is_char_exclusive _ "f" "p")
      by (assumption || discriminate).
    rewrite orb_false_r.
    destruct (0 <? _); [destruct (_ =? 0) | destruct (_ =? 0)];
      cbn [outcome snd bind ret]; try discriminate; intros [= <-]; now split. }
  destruct (is_char (opt o) "h") eqn:Eh; [discriminate |].
  destruct (is_char (opt o) "p") eqn:Ep.
  { intros [= <-]. cbn [isDaemon pidfile].
    rewrite (is_char_exclusive _ "p" "D") by (assumption || discriminate).
    now rewrite orb_false_r. }
  destruct (is_char (opt o) "s") eqn:Es.
  { intros [= <-]. cbn [isDaemon pidfile].
    rewrite (is_char_exclusive _ "s" "D") by (assumption || discriminate).
    now rewrite orb_false_r. }
  destruct (is_char (opt o) "D") eqn:ED; [| discriminate].
  intros [= <-]. cbn [isDaemon pidfile]. now rewrite orb_true_r.
Qed.

Lemma parse_options_flags (opts : list option_found) (c c' : config) :
  outcome (parse_options program c opts) = Ret c' ->
  (isDaemon c' = true <-> isDaemon c = true \/ has_option "D" opts) /\
  (pidfile c' = None <-> pidfile c = None /\ ~ has_option "p" opts).
Proof.
  unfold has_option. revert c.
  induction opts as [| o rest IH]; intros c.
  - intros [= <-]. split; split.
    + now left.
    + intros [H | H]; [assumption | inversion H].
    + intros H. split; [assumption | intros E; inversion E].
    + now intros [H _].
  - cbn [parse_options]. intros H. apply bind_returns in H.
    destruct H as (c1 & Ho & Hr & _).
    destruct (parse_option_flags c c1 o Ho) as [Hd Hp].
    destruct (IH c1 Hr) as [IHd IHp]. split.
    + rewrite IHd, Hd, orb_true_iff, Exists_cons. tauto.
    + rewrite IHp, Hp, Exists_cons.
      destruct (is_char (opt o) "p"); split.
      * intros [E _]. discriminate E.
      * intros [_ E]. exfalso. apply E. now left.
      * intros [E1 E2]. split; [assumption |].
        intros [E | E]; [discriminate | contradiction].
      * intros [E1 E2]. split; [assumption | tauto].
Qed.

Lemma slow_enough_interval (c : config) :
  slow_enough c -> 1 <= frameDuration c <= 1000000.
Proof.
  intros [[Hl Hu] ->]. rewrite Z.quot_div_nonneg by lia. split.
  - apply Z.div_le_lower_bound; lia.
  - apply Z.div_le_upper_bound; nia.
Qed.

Lemma parse_option_slow_enough (c : config) (o : option_found) :
  slow_enough c ->
  (is_char (opt o) "f" = true -> Libc.atoi (optarg o) <= 1000000) ->
  match outcome (parse_option program c o) with
  | Ret c' => slow_enough c'
  | Halt DivisionByZero => False
  | Halt _ => True
  end.
Proof.
  intros Hc Ho. pose proof (slow_enough_interval c Hc) as Hi.
  unfold parse_option, c_div.
  destruct (is_char (opt o) "d"); [exact Hc |].
  destruct (is_char (opt o) "f").
  - specialize (Ho eq_refl).
    destruct (0 <? Libc.atoi (optarg o)) eqn:E.
    + apply Z.ltb_lt in E.
      destruct (Libc.atoi (optarg o) =? 0) eqn:E0;
        [apply Z.eqb_eq in E0; lia |].
      simpl. split; [simpl; lia | reflexivity].
    + destruct (frameDuration c =? 0) eqn:E0;
        [apply Z.eqb_eq in E0; lia |].
      simpl. unfold slow_enough. simpl.
      rewrite Z.quot_div_nonneg by lia.
      destruct Hc as [[Hl Hu] Hd].
      rewrite Z.quot_div_nonneg in Hd by lia.
      destruct (frame_interval_stable (fps c) Hl) as [H1 H2];
        [rewrite <- Hd; lia |].
      rewrite <- Hd in H1, H2.
      rewrite Z.quot_div_nonneg by lia.
      repeat split; [assumption | | now rewrite H2].
      apply Z.div_le_upper_bound; nia.
  - destruct (is_char (opt o) "h"); [exact I |].
    destruct (is_char (opt o) "p"); [exact Hc |].
    destruct (is_char (opt o) "s"); [exact Hc |].
    destruct (is_char (opt o) "D"); [exact Hc | exact I].
Qed.

Lemma parse_options_slow_enough (opts : list option_found) (c : config) :
  slow_enough c ->
  Forall (fun o => is_char (opt o) "f" = true ->
                   Libc.atoi (optarg o) <= 1000000) opts ->
  outcome (parse_options program c opts) <> Halt DivisionByZero.
Proof.
  intros Hc Hall. revert c Hc.
  induction Hall as [| o rest Ho _ IH]; intros c Hc; [discriminate |].
  cbn [parse_options]. rewrite outcome_bind.
  pose proof (parse_option_slow_enough c o Hc Ho) as H.
  destruct (outcome (parse_option program c o)) as [c1 | h].
  - now apply IH.
  - destruct h; [discriminate | contradiction | discriminate].
Qed.

Lemma parse_option_fps_fast (c : config) (s : string) :
  1000000 < Libc.atoi s ->
  parse_option program c (Opt "f" s) =
  ret {| fps := Libc.atoi s; frameDuration := 0;
         isDaemon := isDaemon c;
         sourceDisplayNumber := sourceDisplayNumber c;
         destDisplayNumber := destDisplayNumber c;
         pidfile := pidfile c |}.
Proof.
  intros H. rewrite parse_option_fps_positive by lia.
  rewrite Z.quot_small by lia. reflexivity.
Qed.

End Options.

(** X1. When the parsing loop leaves through [exit], the [fprintf] calls
    of the program itself are those of the usage text and no other: on the
    standard output, with status 0, and then some option is [-h]; or on
    the error stream, with status 1, and then some option character is
    none of the six the program knows.  What [getopt_long] writes by itself
    before it answers ['?'] is no call of the program and is not counted
    here. *)
Theorem parsing_exits_with_usage_only (program : string)
    (opts : list option_found) (status : Z) :
  outcome (parse_options program initial_config opts) = Halt (Exit status) ->
  (status = EXIT_SUCCESS /\
   trace (parse_options program initial_config opts) =
     trace (printUsage Stdout program) /\
   has_option "h" opts) \/
  (status = EXIT_FAILURE /\
   trace (parse_options program initial_config opts) =
     trace (printUsage Stderr program) /\
   Exists unrecognised opts).
Proof. apply parse_options_exit. Qed.

Lemma parsing_exits_with_usage_only_witness :
  (EXIT_FAILURE = EXIT_SUCCESS /\
   trace (parse_options "raspi2raspi" initial_config
            [Opt "f" "25"; Opt "?" ""; Opt "h" ""]) =
     trace (printUsage Stdout "raspi2raspi") /\
   has_option "h" [Opt "f" "25"; Opt "?" ""; Opt "h" ""]) \/
  (EXIT_FAILURE = EXIT_FAILURE /\
   trace (parse_options "raspi2raspi" initial_config
            [Opt "f" "25"; Opt "?" ""; Opt "h" ""]) =
     trace (printUsage Stderr "raspi2raspi") /\
   Exists unrecognised [Opt "f" "25"; Opt "?" ""; Opt "h" ""]).
Proof.
  apply (parsing_exits_with_usage_only "raspi2raspi"
           [Opt "f" "25"; Opt "?" ""; Opt "h" ""] EXIT_FAILURE).
  reflexivity.
Defined.

(** X2. Parsing divides by zero only after an [--fps] argument above
    1000000: when no [--fps] argument exceeds 1000000, the parsing loop
    never does.  Conversely, an [--fps] argument above 1000000 followed by
    one that is zero, negative or malformed always does. *)
Theorem division_by_zero_needs_fast_fps (program : string)
    (opts : list option_found) :
  (Forall (fun o => is_char (opt o) "f" = true ->
                    Libc.atoi (optarg o) <= 1000000) opts ->
   outcome (parse_options program initial_config opts)
     <> Halt DivisionByZero) /\
  (forall c fast slow,
     outcome (parse_options program initial_config opts) = Ret c ->
     1000000 < Libc.atoi fast -> Libc.atoi slow <= 0 ->
     parse_options program initial_config
       (opts ++ [Opt "f" fast; Opt "f" slow]) = ([], Halt DivisionByZero)).
Proof.
  split.
  - apply parse_options_slow_enough. split; [| reflexivity].
    unfold initial_config, DEFAULT_FPS. simpl. lia.
  - intros c fast slow Hc Hf Hs.
    rewrite parse_options_app, (parse_options_ret _ _ _ _ Hc).
    cbn [bind app parse_options].
    rewrite (parse_option_fps_fast program c fast Hf).
    cbn [bind ret app]. unfold parse_option, c_div. cbn.
    destruct (0 <? Libc.atoi slow) eqn:E; [apply Z.ltb_lt in E; lia |].
    reflexivity.
Qed.

Lemma division_by_zero_needs_fast_fps_witness :
  outcome (parse_options "raspi2raspi" initial_config
             [Opt "f" "1000000"; Opt "f" "x"; Opt "f" "-1"])
    <> Halt DivisionByZero /\
  parse_options "raspi2raspi" initial_config
    ([Opt "D" ""] ++ [Opt "f" "1000001"; Opt "f" "x"]) =
    ([], Halt DivisionByZero).
Proof.
  split.
  - apply (proj1 (division_by_zero_needs_fast_fps "raspi2raspi"
                    [Opt "f" "1000000"; Opt "f" "x"; Opt "f" "-1"])).
    repeat constructor; intros _; vm_compute; discriminate.
  - apply (proj2 (division_by_zero_needs_fast_fps "raspi2raspi"
                    [Opt "D" ""])
             (Config 10 100000 true 0 5 None) "1000001" "x").
    + reflexivity.
    + reflexivity.
    + vm_compute. discriminate.
Defined.

(** X3. When parsing returns, daemon mode is set exactly when some option
    is [-D], and no PID-file path is recorded exactly when no option is
    [-p]: no other option touches either, and no later option undoes
    them. *)
Theorem daemon_and_pidfile_follow_options (program : string)
    (opts : list option_found) (c : config) :
  outcome (parse_options program initial_config opts) = Ret c ->
  (isDaemon c = true <-> has_option "D" opts) /\
  (pidfile c = None <-> ~ has_option "p" opts).
Proof.
  intros H. destruct (parse_options_flags program opts _ _ H) as [Hd Hp].
  split.
  - rewrite Hd. simpl. intuition discriminate.
  - rewrite Hp. simpl. tauto.
Qed.

Lemma daemon_and_pidfile_follow_options_witness :
  (isDaemon (Config 5 200000 true 0 5 (Some "/tmp/x.pid")) = true <->
   has_option "D" [Opt "p" "/tmp/x.pid"; Opt "D" ""; Opt "f" "5"]) /\
  (pidfile (Config 5 200000 true 0 5 (Some "/tmp/x.pid")) = None <->
   ~ has_option "p" [Opt "p" "/tmp/x.pid"; Opt "D" ""; Opt "f" "5"]).
Proof.
  apply (daemon_and_pidfile_follow_options "raspi2raspi"
           [Opt "p" "/tmp/x.pid"; Opt "D" ""; Opt "f" "5"]).
  reflexivity.
Defined.

(** ** Walking a computation *)

Lemma call_ret {A : Type} (e : event) (res a : A) :
  outcome (call e res) = Ret a -> a = res.
Proof. now intros [= ->]. Qed.

Lemma when_fatal_ret (b : bool) (c : config) (pfh : Z) (message : string)
    (u : unit) :
  outcome (when b (fatal c pfh message)) = Ret u -> b = false.
Proof.
  destruct b; [| reflexivity].
  unfold when, fatal, messageLog, exitAndRemovePidFile, NULL.
  destruct (pfh =? 0); discriminate.
Qed.

Lemma avoids_weaken {A : Type} (P Q : event -> bool) (m : M A) :
  (forall e, P e = false -> Q e = false) -> avoids P m -> avoids Q m.
Proof. intros H. apply Forall_impl. exact H. Qed.

(** Going through a chain of calls, with [special] for the calls that need
    an argument of their own and [side] for the class of each event; the
    value a call returns is put in place of the variable bound to it, and
    a guard that let the computation go on is recorded as false. *)
Ltac walk special side :=
  repeat first
    [ special
    | apply avoids_ret
    | apply avoids_exit
    | apply avoids_when
    | apply avoids_emit; side
    | apply avoids_call; side
    | apply avoids_exitAndRemovePidFile; intros; side
    | apply avoids_bind_outcome;
      [| let x := fresh "x" in
         let H := fresh "G" in
         intros x H;
         first [ apply call_ret in H; subst x
               | apply when_fatal_ret in H
               | clear H ] ]
    | progress unfold fatal, messageLog, perrorLog ].

(** ** The calls of the loop body *)

Section LoopOnly.

Variables (program : string) (env : environment).
Variable P : event -> bool.
Hypothesis P_loop_only : forall e, loop_call e = false -> P e = false.

Ltac outside := walk fail ltac:(apply P_loop_only; reflexivity).

Lemma loop_only_parse_options (opts : list option_found) (c : config) :
  avoids P (parse_options program c opts).
Proof.
  apply avoids_parse_options. intros. now apply P_loop_only.
Qed.

Lemma loop_only_lifecycle (c : config) : avoids P (lifecycle program c env).
Proof.
  unfold lifecycle. destruct (isDaemon c); [| apply avoids_ret].
  destruct (pidfile c) as [path |]; outside.
  destruct (_ =? NULL); outside.
Qed.

Lemma loop_only_install_handlers (c : config) (pfh : Z) :
  avoids P (install_handlers c pfh env).
Proof. unfold install_handlers. outside. Qed.

Lemma loop_only_open_session (c : config) (pfh : Z) :
  avoids P (open_session c pfh env).
Proof. unfold open_session. outside. Qed.

Lemma loop_only_teardown (c : config) (pfh : Z) (s : session) :
  avoids P (teardown c pfh s env).
Proof. unfold teardown. outside. Qed.

Lemma avoids_mirror_loop_frames (c : config) (pfh : Z) (s : session)
    (frames : list frame) (run : bool) :
  Forall (fun f => avoids P (mirror_frame c pfh s f)) frames ->
  avoids P (mirror_loop c pfh s run frames).
Proof.
  intros H. revert run. induction H as [| f rest Hf _ IH]; intros run;
    simpl; destruct run; try constructor.
  apply avoids_bind; [exact Hf | intros; apply IH].
Qed.

(** A class of events met in the loop body at most is avoided by a whole
    run as soon as each iteration avoids it. *)
Lemma loop_only_run (c : config) (frames : list frame) :
  (forall pfh s, Forall (fun f => avoids P (mirror_frame c pfh s f)) frames) ->
  avoids P (run_configured program c env frames).
Proof.
  intros H. unfold run_configured.
  apply avoids_bind; [apply loop_only_lifecycle | intros pfh].
  apply avoids_bind; [apply loop_only_install_handlers | intros _].
  apply avoids_bind; [apply loop_only_open_session | intros s].
  apply avoids_bind; [now apply avoids_mirror_loop_frames | intros _].
  apply loop_only_teardown.
Qed.

End LoopOnly.

(** ** Elapsed time and the length of the sleeps *)

Section Timing.

Lemma timersub_normal (a b : timeval) :
  normal a -> normal b -> normal (timersub a b).
Proof.
  unfold normal, timersub. intros Ha Hb.
  destruct (tv_usec a - tv_usec b <? 0) eqn:E; simpl.
  - apply Z.ltb_lt in E. lia.
  - apply Z.ltb_ge in E. lia.
Qed.

Lemma timersub_microseconds (a b : timeval) :
  microseconds (timersub a b) = microseconds a - microseconds b.
Proof.
  unfold microseconds, timersub.
  destruct (tv_usec a - tv_usec b <? 0); simpl; ring.
Qed.

Lemma avoids_pace (d : Z) (e : timeval) :
  0 <= tv_usec e -> avoids (sleep_outside d) (pace d e).
Proof.
  intros He. unfold pace.
  destruct (tv_sec e =? 0); [| apply avoids_ret].
  destruct (tv_usec e <? d) eqn:E; [| apply avoids_ret].
  apply Z.ltb_lt in E. apply avoids_emit. simpl.
  replace (0 <? d - tv_usec e) with true by (symmetry; apply Z.ltb_lt; lia).
  replace (d - tv_usec e <=? d) with true
    by (symmetry; apply Z.leb_le; lia).
  reflexivity.
Qed.

Lemma avoids_mirror_frame_sleep (c : config) (pfh : Z) (s : session)
    (f : frame) :
  well_timed f ->
  avoids (sleep_outside (frameDuration c)) (mirror_frame c pfh s f).
Proof.
  intros [Hs He]. unfold mirror_frame.
  walk ltac:(apply avoids_pace; apply timersub_normal; assumption)
       ltac:(reflexivity).
Qed.

Lemma sleeps_inside {A : Type} (d : Z) (m : M A) :
  avoids (sleep_outside d) m -> Forall (fun u => 0 < u <= d) (sleeps m).
Proof.
  unfold avoids, sleeps. induction 1 as [| e tr He _ IH]; [constructor |].
  destruct e; simpl; try exact IH.
  constructor; [| exact IH]. simpl in He.
  apply negb_false_iff, andb_true_iff in He. destruct He as [H1 H2].
  apply Z.ltb_lt in H1. apply Z.leb_le in H2. lia.
Qed.

Lemma paced_interval (c : config) : paced c -> 0 <= frameDuration c <= 1000000.
Proof.
  intros [Hf ->]. rewrite Z.quot_div_nonneg by lia. split.
  - apply Z.div_pos; lia.
  - apply Z.div_le_upper_bound; nia.
Qed.

Lemma avoids_run_sleep (program : string) (env : environment) (c : config)
    (frames : list frame) :
  Forall well_timed frames ->
  avoids (sleep_outside (frameDuration c))
    (run_configured program c env frames).
Proof.
  intros H. apply loop_only_run.
  - now intros [].
  - intros pfh s. eapply Forall_impl; [| exact H].
    intros f. apply avoids_mirror_frame_sleep.
Qed.

End Timing.

(** X4. In a run whose timestamps are as [gettimeofday] gives them, with
    microseconds below one second, every [usleep] the program makes has an
    argument of at least 1 and at most the frame interval, and the frame
    interval is at most 1000000 microseconds, whatever the options are. *)
Theorem sleeps_within_frame_interval (program : string)
    (opts : list option_found) (env : environment) (frames : list frame)
    (c : config) :
  outcome (parse_options program initial_config opts) = Ret c ->
  Forall well_timed frames ->
  0 <= frameDuration c <= 1000000 /\
  Forall (fun u => 0 < u <= frameDuration c)
    (sleeps (main program opts env frames)).
Proof.
  intros Hc Hf. split.
  - apply paced_interval.
    eapply parse_options_paced; [apply paced_initial | exact Hc].
  - apply sleeps_inside. unfold main.
    rewrite (parse_options_ret _ _ _ _ Hc).
    change (@pair (list event) (result config) [] (Ret c)) with (ret c).
    rewrite bind_ret_l. now apply avoids_run_sleep.
Qed.

Lemma sleeps_within_frame_interval_witness :
  0 <= 1000000 <= 1000000 /\
  Forall (fun u => 0 < u <= 1000000)
    (sleeps (main "raspi2raspi" [Opt "f" "1"] sample_environment
               [Frame (Timeval 100 0) 0 0 0 8 0 0 (Timeval 100 0) [];
                sample_frame 999999 [SIGTERM]])).
Proof.
  apply (sleeps_within_frame_interval "raspi2raspi" [Opt "f" "1"]
           sample_environment
           [Frame (Timeval 100 0) 0 0 0 8 0 0 (Timeval 100 0) [];
                sample_frame 999999 [SIGTERM]]
           (Config 1 1000000 false 0 5 None)).
  - reflexivity.
  - repeat (apply Forall_cons; [split; unfold normal; simpl; lia |]).
    apply Forall_nil.
Defined.

(** X5. An [--fps] argument above 1000000, when it is the last option,
    gives a frame interval of 0, and the run then never sleeps: this, not a
    zero or negative argument, is what makes the loop run back to back. *)
Theorem fast_fps_never_sleeps (program : string) (opts : list option_found)
    (env : environment) (frames : list frame) (c : config) (s : string) :
  outcome (parse_options program initial_config opts) = Ret c ->
  1000000 < Libc.atoi s ->
  Forall well_timed frames ->
  (exists c',
     parse_options program initial_config (opts ++ [Opt "f" s]) = ret c' /\
     fps c' = Libc.atoi s /\ frameDuration c' = 0) /\
  sleeps (main program (opts ++ [Opt "f" s]) env frames) = [].
Proof.
  intros Hc Hs Hf.
  assert (Hp : parse_options program initial_config (opts ++ [Opt "f" s]) =
               ret {| fps := Libc.atoi s; frameDuration := 0;
                      isDaemon := isDaemon c;
                      sourceDisplayNumber := sourceDisplayNumber c;
                      destDisplayNumber := destDisplayNumber c;
                      pidfile := pidfile c |}).
  { rewrite parse_options_app, (parse_options_ret _ _ _ _ Hc).
    cbn [bind app parse_options].
    now rewrite (parse_option_fps_fast program c s Hs). }
  split; [eexists; split; [exact Hp | now split] |].
  unfold main. rewrite Hp, bind_ret_l.
  pose proof (sleeps_inside _ _
                (avoids_run_sleep program env
                   {| fps := Libc.atoi s; frameDuration := 0;
                      isDaemon := isDaemon c;
                      sourceDisplayNumber := sourceDisplayNumber c;
                      destDisplayNumber := destDisplayNumber c;
                      pidfile := pidfile c |} frames Hf)) as H.
  cbn [frameDuration] in H.
  destruct (sleeps _) as [| u rest]; [reflexivity |].
  inversion H; subst. lia.
Qed.

Lemma fast_fps_never_sleeps_witness :
  sleeps (main "raspi2raspi" ([Opt "f" "0"] ++ [Opt "f" "1000001"])
            sample_environment
            [sample_frame 1000 []; sample_frame 1010 [SIGTERM]]) = [].
Proof.
  apply (fast_fps_never_sleeps "raspi2raspi" [Opt "f" "0"]
           sample_environment [sample_frame 1000 []; sample_frame 1010 [SIGTERM]]
           (Config 10 100000 false 0 5 None) "1000001").
  - reflexivity.
  - reflexivity.
  - repeat (apply Forall_cons; [split; unfold normal; simpl; lia |]).
    apply Forall_nil.
Defined.

(** X6. The pacer in elapsed microseconds.  For an iteration that reaches
    its end timestamp, with timestamps as [gettimeofday] gives them and a
    frame interval of at most one second, let [elapsed] be the end
    timestamp minus the start timestamp, in microseconds.  When
    [0 <= elapsed < frameDuration] the iteration sleeps
    [frameDuration - elapsed], so that iteration and sleep together last
    the frame interval; when the iteration took the frame interval or more,
    or the clock went backwards, it does not sleep. *)
Theorem pacer_in_microseconds (c : config) (pfh : Z) (s : session)
    (f : frame) :
  completes f -> well_timed f -> 0 <= frameDuration c <= 1000000 ->
  let elapsed := microseconds (frame_end f) - microseconds (frame_start f) in
  (0 <= elapsed < frameDuration c ->
   sleeps (mirror_frame c pfh s f) = [frameDuration c - elapsed]) /\
  (elapsed < 0 \/ frameDuration c <= elapsed ->
   sleeps (mirror_frame c pfh s f) = []).
Proof.
  intros Hc [Hs He] Hd elapsed.
  rewrite (mirror_frame_completes c pfh s f Hc).
  pose proof (timersub_normal _ _ He Hs) as Hn.
  pose proof (timersub_microseconds (frame_end f) (frame_start f)) as Hm.
  fold elapsed in Hm. unfold microseconds, normal in Hm, Hn.
  set (e := timersub (frame_end f) (frame_start f)) in *.
  split.
  - intros Hin.
    assert (H0 : tv_sec e = 0) by nia.
    assert (Hu : tv_usec e = elapsed) by lia.
    rewrite pace_sleeps by lia. rewrite Hu. reflexivity.
  - intros Hout. rewrite pace_proceeds; [reflexivity |].
    intros [H0 Hu]. rewrite H0 in Hm. lia.
Qed.

Lemma pacer_in_microseconds_witness :
  sleeps (mirror_frame initial_config NULL
            (session_of sample_environment) (sample_frame 5000 [])) =
    [100000 - 5000] /\
  sleeps (mirror_frame initial_config NULL
            (session_of sample_environment)
            (Frame (Timeval 101 0) 0 0 0 8 0 0 (Timeval 100 999999) [])) = [].
Proof.
  split.
  - apply (pacer_in_microseconds initial_config NULL
             (session_of sample_environment) (sample_frame 5000 [])).
    + repeat split; discriminate.
    + split; unfold normal; simpl; lia.
    + split; vm_compute; discriminate.
    + vm_compute. split; [discriminate | reflexivity].
  - apply (pacer_in_microseconds initial_config NULL
             (session_of sample_environment)
             (Frame (Timeval 101 0) 0 0 0 8 0 0 (Timeval 100 999999) [])).
    + repeat split; discriminate.
    + split; unfold normal; simpl; lia.
    + split; vm_compute; discriminate.
    + left. reflexivity.
Defined.

(** ** Signals and the end of the loop *)

Section Stopping.

Lemma signalHandler_stop (n : Z) (run : bool) :
  stop_signal n -> signalHandler n run = false.
Proof.
  unfold signalHandler. intros [-> | ->]; reflexivity.
Qed.

Lemma signalHandler_other (n : Z) (run : bool) :
  ~ stop_signal n -> signalHandler n run = run.
Proof.
  unfold signalHandler, stop_signal. intros H.
  destruct (n =? SIGINT) eqn:Ei; [apply Z.eqb_eq in Ei; tauto |].
  destruct (n =? SIGTERM) eqn:Et; [apply Z.eqb_eq in Et; tauto |].
  reflexivity.
Qed.

Lemma deliver_cons (n : Z) (signals : list Z) (run : bool) :
  deliver (n :: signals) run = deliver signals (signalHandler n run).
Proof. reflexivity. Qed.

Lemma deliver_lowered (signals : list Z) : deliver signals false = false.
Proof.
  induction signals as [| n rest IH]; [reflexivity |].
  now rewrite deliver_cons, signalHandler_false.
Qed.

Lemma deliver_stop (signals : list Z) (run : bool) :
  Exists stop_signal signals -> deliver signals run = false.
Proof.
  intros H. revert run. induction H as [n rest Hn | n rest _ IH]; intros run;
    rewrite deliver_cons.
  - rewrite signalHandler_stop by assumption. apply deliver_lowered.
  - apply IH.
Qed.

Lemma deliver_other (signals : list Z) (run : bool) :
  Forall (fun n => ~ stop_signal n) signals -> deliver signals run = run.
Proof.
  induction 1 as [| n rest Hn _ IH]; [reflexivity |].
  now rewrite deliver_cons, signalHandler_other.
Qed.

Lemma deliver_true (signals : list Z) (run : bool) :
  deliver signals run = false -> run = false \/ Exists stop_signal signals.
Proof.
  revert run. induction signals as [| n rest IH]; intros run.
  - now left.
  - rewrite deliver_cons. intros H. destruct (IH _ H) as [Hh | He].
    + destruct (Bool.bool_dec (signalHandler n run) run) as [E | E].
      * left. congruence.
      * right. apply Exists_cons_hd.
        now destruct (signalHandler_clears n run E) as (Hs & _).
    + right. now apply Exists_cons_tl.
Qed.

Variables (c : config) (pfh : Z) (s : session).

Lemma mirror_loop_lowered (frames : list frame) :
  mirror_loop c pfh s false frames = ret tt.
Proof. now destruct frames. Qed.

Lemma mirror_loop_ret_signal (frames : list frame) (run : bool) (u : unit) :
  outcome (mirror_loop c pfh s run frames) = Ret u ->
  run = false \/ Exists stop_signal (flat_map signals_delivered frames).
Proof.
  revert run. induction frames as [| f rest IH]; intros run.
  - destruct run; [discriminate | now left].
  - destruct run; [| now left]. cbn [mirror_loop]. intros H.
    apply bind_returns in H. destruct H as (_ & _ & H & _).
    right. cbn [flat_map]. apply Exists_app.
    destruct (IH _ H) as [Hd | He]; [left | now right].
    destruct (deliver_true _ _ Hd) as [E | E]; [discriminate | exact E].
Qed.

Lemma mirror_frame_returns (f : frame) :
  completes f -> outcome (mirror_frame c pfh s f) = Ret tt.
Proof.
  intros H. rewrite (mirror_frame_completes c pfh s f H).
  unfold pace. destruct (_ =? 0); [destruct (_ <? _) |]; reflexivity.
Qed.

Lemma mirror_frame_snapshots (f : frame) :
  completes f ->
  List.length (filter is_snapshot (trace (mirror_frame c pfh s f))) = 1%nat.
Proof.
  intros H. rewrite (mirror_frame_completes c pfh s f H).
  unfold pace. destruct (_ =? 0); [destruct (_ <? _) |]; reflexivity.
Qed.

End Stopping.

(** X7. The program returns from [main] only after a SIGINT or a SIGTERM
    was handled: when a run returns, one of the signals handled between
    the installation of the handler and the last test of the flag is one of
    the two.  No other event ends the loop with a return. *)
Theorem return_needs_stop_signal (program : string)
    (opts : list option_found) (env : environment) (frames : list frame)
    (status : Z) :
  outcome (main program opts env frames) = Ret status ->
  Exists stop_signal (signals_handled env frames).
Proof.
  unfold main, run_configured. intros H.
  apply bind_returns in H. destruct H as (c & _ & H & _).
  apply bind_returns in H. destruct H as (pfh & _ & H & _).
  apply bind_returns in H. destruct H as (_ & _ & H & _).
  apply bind_returns in H. destruct H as (s & _ & H & _).
  apply bind_returns in H. destruct H as (u & H & _ & _).
  unfold signals_handled. apply Exists_app.
  destruct (mirror_loop_ret_signal _ _ _ _ _ _ H) as [Hd | He];
    [left | now right].
  destruct (deliver_true _ _ Hd) as [E | E]; [discriminate | exact E].
Qed.

Lemma return_needs_stop_signal_witness :
  Exists stop_signal
    (signals_handled sample_environment
       [sample_frame 5000 [1]; sample_frame 5000 [10; SIGINT; 12]]).
Proof.
  apply (return_needs_stop_signal "raspi2raspi" [] sample_environment
           [sample_frame 5000 [1]; sample_frame 5000 [10; SIGINT; 12]] 0).
  reflexivity.
Defined.

(** X8. When the first SIGINT or SIGTERM is handled during an iteration,
    and that iteration and those before it have no failing call, the loop
    finishes that iteration, pacing included, and returns: it takes one
    snapshot per iteration up to that one, and what would have happened in
    later iterations has no influence. *)
Theorem stop_signal_ends_after_iteration (c : config) (pfh : Z) (s : session)
    (before after : list frame) (f : frame) :
  Forall (fun g => completes g /\
                   Forall (fun n => ~ stop_signal n) (signals_delivered g))
    before ->
  completes f -> Exists stop_signal (signals_delivered f) ->
  mirror_loop c pfh s true (before ++ f :: after) =
    mirror_loop c pfh s true (before ++ [f]) /\
  outcome (mirror_loop c pfh s true (before ++ f :: after)) = Ret tt /\
  List.length
    (filter is_snapshot
       (trace (mirror_loop c pfh s true (before ++ f :: after)))) =
    S (List.length before).
Proof.
  intros Hb Hf Hs. induction Hb as [| g rest [Hg Hn] _ IH].
  - cbn [app mirror_loop]. rewrite (deliver_stop _ true Hs).
    rewrite !mirror_loop_lowered. split; [reflexivity |].
    rewrite outcome_bind, trace_bind, (mirror_frame_returns c pfh s f Hf).
    split; [reflexivity |].
    cbn [outcome trace ret fst snd]. rewrite app_nil_r.
    apply mirror_frame_snapshots, Hf.
  - cbn [app mirror_loop]. rewrite (deliver_other _ true Hn).
    destruct IH as (IH1 & IH2 & IH3). rewrite IH1. split; [reflexivity |].
    rewrite outcome_bind, trace_bind, (mirror_frame_returns c pfh s g Hg).
    rewrite <- IH1. split; [exact IH2 |].
    rewrite filter_app, length_app, IH3, (mirror_frame_snapshots c pfh s g Hg).
    reflexivity.
Qed.

Lemma stop_signal_ends_after_iteration_witness :
  mirror_loop initial_config NULL (session_of sample_environment) true
    ([sample_frame 5000 [1]] ++
     sample_frame 200000 [SIGTERM; SIGTERM] :: [failed_snapshot_frame]) =
  mirror_loop initial_config NULL (session_of sample_environment) true
    ([sample_frame 5000 [1]] ++ [sample_frame 200000 [SIGTERM; SIGTERM]]) /\
  outcome
    (mirror_loop initial_config NULL (session_of sample_environment) true
       ([sample_frame 5000 [1]] ++
        sample_frame 200000 [SIGTERM; SIGTERM] :: [failed_snapshot_frame]))
    = Ret tt /\
  List.length
    (filter is_snapshot
       (trace
          (mirror_loop initial_config NULL (session_of sample_environment)
             true
             ([sample_frame 5000 [1]] ++
              sample_frame 200000 [SIGTERM; SIGTERM]
              :: [failed_snapshot_frame])))) = 2%nat.
Proof.
  apply (stop_signal_ends_after_iteration initial_config NULL
           (session_of sample_environment) [sample_frame 5000 [1]]
           [failed_snapshot_frame] (sample_frame 200000 [SIGTERM; SIGTERM])).
  - repeat constructor; try discriminate.
    intros [E | E]; discriminate E.
  - repeat split; discriminate.
  - apply Exists_cons_hd. now right.
Defined.

(** X9. A SIGINT or SIGTERM handled after the handlers are installed and
    before the loop tests the flag for the first time makes the run skip the
    loop: it is the run with no iteration at all, and makes none of the
    calls of the loop body (no snapshot, no read or write of pixels, no
    timestamp, no sleep). *)
Theorem early_stop_signal_skips_loop (program : string)
    (opts : list option_found) (env : environment) (frames : list frame) :
  Exists stop_signal (signals_before_loop env) ->
  main program opts env frames = main program opts env [] /\
  avoids loop_call (main program opts env frames).
Proof.
  intros H.
  assert (E : main program opts env frames = main program opts env []).
  { unfold main, run_configured.
    rewrite (deliver_stop _ run_init H).
    apply bind_ext; intros c. apply bind_ext; intros pfh.
    apply bind_ext; intros _. apply bind_ext; intros s.
    now rewrite !mirror_loop_lowered. }
  split; [exact E |]. rewrite E. unfold main.
  apply avoids_bind.
  - now apply loop_only_parse_options.
  - intros c. apply loop_only_run; [trivial | constructor].
Qed.

Lemma early_stop_signal_skips_loop_witness :
  avoids loop_call
    (main "raspi2raspi" []
       (Environment 0 0 0 false false 1 0 (ModeInfo 1920 1080) 2 0
          (ModeInfo 1280 720) 4096 3 4 5 6 0 [1; SIGINT] 7)
       [sample_frame 5000 []; failed_snapshot_frame]).
Proof.
  apply (early_stop_signal_skips_loop "raspi2raspi" []
           (Environment 0 0 0 false false 1 0 (ModeInfo 1920 1080) 2 0
              (ModeInfo 1280 720) 4096 3 4 5 6 0 [1; SIGINT] 7)
           [sample_frame 5000 []; failed_snapshot_frame]).
  apply Exists_cons_tl, Exists_cons_hd. now left.
Defined.

(** ** Exit statuses and diagnostics *)

Section Loud.

Lemma fails_loudly_bind {A B : Type} (m : M A) (k : A -> M B) :
  fails_loudly m -> (forall a, fails_loudly (k a)) -> fails_loudly (bind m k).
Proof.
  unfold fails_loudly. intros Hm Hk.
  rewrite trace_bind, outcome_bind, filter_app.
  destruct (outcome m) as [a | [st | |]].
  - rewrite Hm. apply Hk.
  - now rewrite app_nil_r.
  - contradiction.
  - now rewrite app_nil_r.
Qed.

Lemma fails_loudly_ret {A : Type} (a : A) : fails_loudly (ret a).
Proof. reflexivity. Qed.

Lemma fails_loudly_quiet {A : Type} (e : event) (res : A) :
  diagnostic e = false -> fails_loudly (call e res).
Proof. unfold fails_loudly. simpl. now intros ->. Qed.

Lemma fails_loudly_emit (e : event) :
  diagnostic e = false -> fails_loudly (emit e).
Proof. apply fails_loudly_quiet. Qed.

Lemma fails_loudly_when (b : bool) (m : M unit) :
  fails_loudly m -> fails_loudly (when b m).
Proof. destruct b; [trivial | reflexivity]. Qed.

Lemma fails_loudly_fatal (c : config) (pfh : Z) (message : string) :
  fails_loudly (fatal c pfh message).
Proof.
  unfold fails_loudly, fatal, messageLog, exitAndRemovePidFile, NULL.
  destruct (pfh =? 0); now split.
Qed.

Lemma fails_loudly_perror (d : bool) (message : string) (pfh : Z) :
  fails_loudly (perrorLog d message ;;
                @exitAndRemovePidFile unit EXIT_FAILURE pfh).
Proof.
  unfold fails_loudly, perrorLog, exitAndRemovePidFile, NULL.
  destruct (pfh =? 0); now split.
Qed.

Ltac loud :=
  repeat first
    [ apply fails_loudly_ret
    | apply fails_loudly_fatal
    | apply fails_loudly_perror
    | apply fails_loudly_when
    | apply fails_loudly_emit; reflexivity
    | apply fails_loudly_quiet; reflexivity
    | apply fails_loudly_bind; [| intros ?]
    | progress unfold messageLog ].

Variables (program : string) (env : environment) (c : config).

Lemma fails_loudly_lifecycle : fails_loudly (lifecycle program c env).
Proof.
  unfold fails_loudly, lifecycle, exitAndRemovePidFile, NULL.
  destruct (isDaemon c); [| reflexivity].
  destruct (pidfile c) as [path |]; simpl.
  - destruct (pidfile_open_result env =? 0) eqn:E; simpl; [now split |].
    rewrite E. destruct (daemon_result env =? -1); simpl; [now split |].
    reflexivity.
  - destruct (daemon_result env =? -1); simpl; [now split | reflexivity].
Qed.

Lemma fails_loudly_install_handlers (pfh : Z) :
  fails_loudly (install_handlers c pfh env).
Proof. unfold install_handlers. loud. Qed.

Lemma fails_loudly_open_session (pfh : Z) :
  fails_loudly (open_session c pfh env).
Proof. unfold open_session. loud. Qed.

Lemma fails_loudly_mirror_frame (pfh : Z) (s : session) (f : frame) :
  fails_loudly (mirror_frame c pfh s f).
Proof. unfold mirror_frame. loud. Qed.

Lemma fails_loudly_mirror_loop (pfh : Z) (s : session) (run : bool)
    (frames : list frame) :
  fails_loudly (mirror_loop c pfh s run frames).
Proof.
  revert run. induction frames as [| f rest IH]; intros run; simpl;
    destruct run; try reflexivity.
  apply fails_loudly_bind; [apply fails_loudly_mirror_frame |].
  intros _. apply IH.
Qed.

Lemma fails_loudly_teardown (pfh : Z) (s : session) :
  fails_loudly (teardown c pfh s env).
Proof. unfold teardown. loud. Qed.

Lemma fails_loudly_run (frames : list frame) :
  fails_loudly (run_configured program c env frames).
Proof.
  unfold run_configured.
  apply fails_loudly_bind; [apply fails_loudly_lifecycle | intros pfh].
  apply fails_loudly_bind; [apply fails_loudly_install_handlers | intros _].
  apply fails_loudly_bind; [apply fails_loudly_open_session | intros s].
  apply fails_loudly_bind; [apply fails_loudly_mirror_loop | intros _].
  apply fails_loudly_teardown.
Qed.

End Loud.

(** X10. Once the options are parsed, a run that leaves through [exit]
    does so with status 1 and has reported exactly one failure, by one
    [fprintf] on the error stream or one error-level log call; a run that
    returns, or that is still in its loop, has reported none; and no such
    run divides by zero. *)
Theorem failures_are_reported_once (program : string) (c : config)
    (env : environment) (frames : list frame) :
  let m := run_configured program c env frames in
  (forall status, outcome m = Halt (Exit status) ->
     status = EXIT_FAILURE /\
     List.length (filter diagnostic (trace m)) = 1%nat) /\
  (forall status, outcome m = Ret status ->
     filter diagnostic (trace m) = []) /\
  (outcome m = Halt StillRunning -> filter diagnostic (trace m) = []) /\
  outcome m <> Halt DivisionByZero.
Proof.
  cbv zeta. pose proof (fails_loudly_run program env c frames) as H.
  unfold fails_loudly in H.
  destruct (outcome (run_configured program c env frames))
    as [st | [st | |]].
  - split; [intros ? [=] |]. split; [intros _ _; exact H |].
    split; intros [=].
  - split; [intros ? [= <-]; exact H |]. split; [intros ? [=] |].
    split; intros [=].
  - contradiction.
  - split; [intros ? [=] |]. split; [intros ? [=] |].
    split; [intros _; exact H | intros [=]].
Qed.

Lemma failures_are_reported_once_witness :
  EXIT_FAILURE = EXIT_FAILURE /\
  List.length
    (filter diagnostic
       (trace (run_configured "raspi2raspi"
                 (Config 10 100000 true 0 5 (Some "/tmp/x.pid"))
                 sample_environment
                 [sample_frame 5000 []; failed_snapshot_frame]))) = 1%nat.
Proof.
  apply (proj1 (failures_are_reported_once "raspi2raspi"
                  (Config 10 100000 true 0 5 (Some "/tmp/x.pid"))
                  sample_environment
                  [sample_frame 5000 []; failed_snapshot_frame])
           EXIT_FAILURE).
  reflexivity.
Defined.

(** X11. The exit status of the program is 0 or 1.  It leaves through
    [exit] with status 0 only for [-h], having printed the usage text on
    the standard output and nothing else; every other [exit] has status
    1. *)
Theorem exit_status_of_main (program : string) (opts : list option_found)
    (env : environment) (frames : list frame) (status : Z) :
  outcome (main program opts env frames) = Halt (Exit status) ->
  (status = EXIT_SUCCESS /\ has_option "h" opts /\
   trace (main program opts env frames) = trace (printUsage Stdout program))
  \/ status = EXIT_FAILURE.
Proof.
  unfold main. intros H.
  destruct (bind_halts _ _ _ H) as [[Hp Ht] | (c & Hc & Hr & _)].
  - destruct (parse_options_exit program opts initial_config status Hp)
      as [(Hs & Hu & Hh) | (Hs & _ & _)].
    + left. rewrite Ht. now repeat split.
    + now right.
  - right. pose proof (fails_loudly_run program env c frames) as Hl.
    unfold fails_loudly in Hl. rewrite Hr in Hl. apply Hl.
Qed.

Lemma exit_status_of_main_witness :
  (EXIT_SUCCESS = EXIT_SUCCESS /\
   has_option "h" [Opt "D" ""; Opt "h" ""; Opt "x" ""] /\
   trace (main "raspi2raspi" [Opt "D" ""; Opt "h" ""; Opt "x" ""]
            sample_environment []) =
     trace (printUsage Stdout "raspi2raspi"))
  \/ EXIT_SUCCESS = EXIT_FAILURE.
Proof.
  apply (exit_status_of_main "raspi2raspi"
           [Opt "D" ""; Opt "h" ""; Opt "x" ""] sample_environment []
           EXIT_SUCCESS).
  reflexivity.
Defined.

(** ** Handles that were tested *)

Ltac tested :=
  cbn [null_handle_use];
  repeat match goal with
         | G : ?t = false |- context [?t] => rewrite G
         end;
  reflexivity.

Section Handles.

Variables (program : string) (env : environment) (c : config).

Lemma null_lifecycle : avoids null_handle_use (lifecycle program c env).
Proof.
  unfold lifecycle, exitAndRemovePidFile, NULL.
  destruct (isDaemon c); [| constructor].
  destruct (pidfile c) as [path |]; simpl.
  - destruct (pidfile_open_result env =? 0) eqn:E; simpl;
      [repeat constructor |].
    rewrite E. destruct (daemon_result env =? -1); repeat constructor.
    exact E.
  - destruct (daemon_result env =? -1); repeat constructor.
Qed.

Lemma null_install_handlers (pfh : Z) :
  avoids null_handle_use (install_handlers c pfh env).
Proof. unfold install_handlers. walk fail tested. Qed.

Lemma null_open_session (pfh : Z) :
  avoids null_handle_use (open_session c pfh env).
Proof. unfold open_session. walk fail tested. Qed.

(** What a setup that succeeds has tested. *)
Lemma open_session_tested (pfh : Z) (s : session) :
  outcome (open_session c pfh env) = Ret s ->
  (sourceDisplay s =? 0) = false /\ (destDisplay s =? 0) = false /\
  (image s =? NULL) = false /\ (element s =? 0) = false.
Proof.
  intros H. rewrite (open_session_ret c pfh env s H). revert H.
  unfold open_session, fatal, messageLog, exitAndRemovePidFile, when, NULL.
  unfold call, emit, exit, ret, bind, outcome.
  repeat match goal with
         | |- context [if ?b then _ else _] => destruct b eqn:?; simpl
         end;
    try discriminate; intros _; repeat split; assumption.
Qed.

Lemma null_mirror_frame (pfh : Z) (s : session) (f : frame) :
  (sourceDisplay s =? 0) = false -> (image s =? NULL) = false ->
  (element s =? 0) = false ->
  avoids null_handle_use (mirror_frame c pfh s f).
Proof. intros Hd Hi He. unfold mirror_frame. walk fail tested. Qed.

Lemma null_teardown (pfh : Z) (s : session) :
  (sourceDisplay s =? 0) = false -> (destDisplay s =? 0) = false ->
  (image s =? NULL) = false -> (element s =? 0) = false ->
  avoids null_handle_use (teardown c pfh s env).
Proof. intros Hs Hd Hi He. unfold teardown. walk fail tested. Qed.

Lemma null_run (frames : list frame) :
  avoids null_handle_use (run_configured program c env frames).
Proof.
  unfold run_configured.
  apply avoids_bind; [apply null_lifecycle | intros pfh].
  apply avoids_bind; [apply null_install_handlers | intros _].
  apply avoids_bind_outcome; [apply null_open_session | intros s Hs].
  destruct (open_session_tested pfh s Hs) as (H1 & H2 & H3 & H4).
  apply avoids_bind.
  - apply avoids_mirror_loop_frames. apply Forall_forall.
    intros f _. now apply null_mirror_frame.
  - intros _. now apply null_teardown.
Qed.

End Handles.

(** X12. A handle or pointer that [main] tests after it obtains it is
    never passed on when it is 0.  In every run, whatever the environment
    answers: the display handles given to the geometry query, the snapshot
    and the close are not 0; the update and display handles given to
    [vc_dispmanx_element_add], and the update and element handles given to
    [vc_dispmanx_element_change_source] and the element given to
    [vc_dispmanx_element_remove], are not 0; the buffer given to the read
    and write of pixels and to [free] is not [NULL]; the handle given to
    [pidfile_write] is not [NULL]. *)
Theorem tested_handles_are_never_null (program : string)
    (opts : list option_found) (env : environment) (frames : list frame) :
  avoids null_handle_use (main program opts env frames).
Proof.
  unfold main. apply avoids_bind.
  - now apply avoids_parse_options.
  - intros c. apply null_run.
Qed.

(** ** Where the log goes *)

Section Logging.

Variables (program : string) (env : environment) (c : config).

Ltac directed :=
  first [ reflexivity
        | cbn [misdirected_log]; now rewrite Bool.eqb_reflx ].

Lemma directed_lifecycle :
  avoids (misdirected_log (isDaemon c)) (lifecycle program c env).
Proof.
  unfold lifecycle, exitAndRemovePidFile, NULL.
  destruct (isDaemon c); [| constructor].
  destruct (pidfile c) as [path |]; simpl.
  - destruct (pidfile_open_result env =? 0) eqn:E; simpl;
      [repeat constructor |].
    rewrite E. destruct (daemon_result env =? -1); repeat constructor.
  - destruct (daemon_result env =? -1); repeat constructor.
Qed.

Lemma directed_run (frames : list frame) :
  avoids (misdirected_log (isDaemon c)) (run_configured program c env frames).
Proof.
  unfold run_configured.
  apply avoids_bind; [apply directed_lifecycle | intros pfh].
  apply avoids_bind;
    [unfold install_handlers; walk fail directed | intros _].
  apply avoids_bind; [unfold open_session; walk fail directed | intros s].
  apply avoids_bind.
  - apply avoids_mirror_loop_frames. apply Forall_forall. intros f _.
    unfold mirror_frame. walk fail directed.
  - intros _. unfold teardown. walk fail directed.
Qed.

Hypothesis foreground : isDaemon c = false.

Ltac console :=
  first [ reflexivity | cbn [syslog_call]; exact foreground ].

Ltac skip_closelog :=
  idtac;
  match goal with
  | |- avoids _ (when (isDaemon c) _) => rewrite foreground; apply avoids_ret
  end.

Lemma console_run (frames : list frame) :
  avoids syslog_call (run_configured program c env frames).
Proof.
  unfold run_configured.
  rewrite (lifecycle_foreground program env c foreground), bind_ret_l.
  apply avoids_bind;
    [unfold install_handlers; walk fail console | intros _].
  apply avoids_bind; [unfold open_session; walk fail console | intros s].
  apply avoids_bind.
  - apply avoids_mirror_loop_frames. apply Forall_forall. intros f _.
    unfold mirror_frame. walk fail console.
  - intros _. unfold teardown. walk skip_closelog console.
Qed.

End Logging.

(** X13. Every log call of a run is made with the daemon flag of the
    parsed configuration, so that all of them go to the same place; and
    when no option is [-D] the run never calls [daemon], [openlog] or
    [closelog] and logs nothing with the daemon flag set. *)
Theorem log_destination_follows_daemon_flag (program : string)
    (opts : list option_found) (env : environment) (frames : list frame)
    (c : config) :
  outcome (parse_options program initial_config opts) = Ret c ->
  avoids (misdirected_log (isDaemon c)) (main program opts env frames) /\
  (~ has_option "D" opts ->
   avoids syslog_call (main program opts env frames)).
Proof.
  intros Hc.
  assert (E : main program opts env frames =
              run_configured program c env frames).
  { unfold main. rewrite (parse_options_ret _ _ _ _ Hc).
    change (@pair (list event) (result config) [] (Ret c)) with (ret c).
    now rewrite bind_ret_l. }
  rewrite E. split; [apply directed_run |].
  intros Hn. apply console_run.
  destruct (parse_options_flags program opts _ _ Hc) as [Hd _].
  destruct (isDaemon c); [| reflexivity].
  destruct (proj1 Hd eq_refl) as [H | H]; [discriminate | contradiction].
Qed.

Lemma log_destination_follows_daemon_flag_witness :
  avoids (misdirected_log true)
    (main "raspi2raspi" [Opt "D" ""] sample_environment
       [failed_snapshot_frame]) /\
  avoids syslog_call
    (main "raspi2raspi" [Opt "p" "/tmp/x.pid"] sample_environment
       [failed_snapshot_frame]).
Proof.
  split.
  - apply (proj1 (log_destination_follows_daemon_flag "raspi2raspi"
                    [Opt "D" ""] sample_environment [failed_snapshot_frame]
                    (Config 10 100000 true 0 5 None) eq_refl)).
  - apply (proj2 (log_destination_follows_daemon_flag "raspi2raspi"
                    [Opt "p" "/tmp/x.pid"] sample_environment
                    [failed_snapshot_frame]
                    (Config 10 100000 false 0 5 (Some "/tmp/x.pid"))
                    eq_refl)).
    intros H. inversion H as [? ? E | ? ? E]; [discriminate E | inversion E].
Defined.

(** ** The stride and the rows *)

Section Stride.

Lemma round_up_16_bounds (w : Z) : w <= round_up_16 w <= w + 15.
Proof.
  unfold round_up_16.
  pose proof (Z.mod_pos_bound (w + 15) 16 ltac:(lia)).
  pose proof (Z.div_mod (w + 15) 16 ltac:(lia)). lia.
Qed.

Lemma round_up_16_aligned (w : Z) : w mod 16 = 0 -> round_up_16 w = w.
Proof.
  intros H. unfold round_up_16.
  pose proof (Z.div_mod w 16 ltac:(lia)) as Hw. rewrite H in Hw.
  replace (w + 15) with (15 + w / 16 * 16) by lia.
  rewrite Z.div_add by lia. change (15 / 16) with 0. lia.
Qed.

Lemma round_up_16_multiple (w : Z) : round_up_16 w mod 16 = 0.
Proof.
  unfold round_up_16. rewrite Z.mul_comm. apply Z.mod_mul. lia.
Qed.

End Stride.

(** X14. For a width from 0 whose padded row fits 32 bits, the stride
    covers a row of 4-byte pixels and pads it with fewer than 16 pixels;
    a width that is a multiple of 16 is not padded; aligning twice is
    aligning once; and, when the length fits 32 bits, the buffer holds the
    [height] rows of [width] pixels. *)
Theorem stride_covers_row (w : Z) :
  0 <= w -> 4 * w + 60 <= Int.INT32_MAX ->
  4 * w <= pitch_of w <= 4 * w + 60 /\
  (w mod 16 = 0 -> pitch_of w = 4 * w) /\
  ALIGN_TO_16 (ALIGN_TO_16 w) = ALIGN_TO_16 w /\
  (forall h, 0 <= h -> pitch_of w * h <= Int.INT32_MAX ->
             4 * w * h <= length_of w h).
Proof.
  intros Hw Hb. pose proof (round_up_16_bounds w) as Hr.
  assert (Ea : ALIGN_TO_16 w = round_up_16 w)
    by (apply ALIGN_TO_16_round_up; lia).
  assert (Ep : pitch_of w = 4 * round_up_16 w).
  { unfold pitch_of, bytesPerPixel. rewrite Ea. apply wrap_int32_small.
    unfold Int.in_int32, Int.INT32_MIN, Int.INT32_MAX in *. lia. }
  split; [lia |]. split; [| split].
  - intros Hm. rewrite Ep, round_up_16_aligned by assumption. reflexivity.
  - rewrite Ea. rewrite ALIGN_TO_16_round_up.
    + apply round_up_16_aligned, round_up_16_multiple.
    + lia.
    + rewrite round_up_16_aligned by apply round_up_16_multiple.
      unfold Int.INT32_MAX in *. lia.
  - intros h Hh Hl. unfold length_of. rewrite wrap_int32_small.
    + rewrite Ep. nia.
    + unfold Int.in_int32, Int.INT32_MIN, Int.INT32_MAX in *. nia.
Qed.

Lemma stride_covers_row_witness :
  4 * 1366 <= pitch_of 1366 <= 4 * 1366 + 60 /\
  (1366 mod 16 = 0 -> pitch_of 1366 = 4 * 1366) /\
  ALIGN_TO_16 (ALIGN_TO_16 1366) = ALIGN_TO_16 1366 /\
  (forall h, 0 <= h -> pitch_of 1366 * h <= Int.INT32_MAX ->
             4 * 1366 * h <= length_of 1366 h).
Proof.
  apply (stride_covers_row 1366); vm_compute; discriminate.
Defined.

(** ** The order of the calls *)

Section Order.

Lemma split_after_prefix {A : Type} (P : A -> bool) (l1 l2 t1 t2 : list A)
    (e : A) :
  (l1 ++ l2 = t1 ++ e :: t2)%list ->
  Forall (fun x => P x = false) l1 -> P e = true ->
  exists t, t1 = (l1 ++ t)%list.
Proof.
  intros E H He. revert t1 E. induction H as [| x l1 Hx _ IH]; intros t1 E.
  - now exists t1.
  - destruct t1 as [| y t1]; simpl in E; injection E as -> E.
    + congruence.
    + destruct (IH t1 E) as [t ->]. now exists t.
Qed.

Variables (program : string) (env : environment) (c : config).

Lemma install_handlers_ret (pfh : Z) (u : unit) :
  outcome (install_handlers c pfh env) = Ret u ->
  trace (install_handlers c pfh env) = [Signal SIGINT; Signal SIGTERM].
Proof.
  unfold install_handlers, perrorLog, exitAndRemovePidFile, NULL.
  destruct (signal_SIGINT_is_SIG_ERR env), (signal_SIGTERM_is_SIG_ERR env),
    (pfh =? 0); simpl; (discriminate || reflexivity).
Qed.

Lemma vendor_lifecycle : avoids vendor_call (lifecycle program c env).
Proof.
  unfold lifecycle, exitAndRemovePidFile, NULL.
  destruct (isDaemon c); [| constructor].
  destruct (pidfile c) as [path |]; simpl.
  - destruct (pidfile_open_result env =? 0) eqn:E; simpl;
      [repeat constructor |].
    rewrite E. destruct (daemon_result env =? -1); repeat constructor.
  - destruct (daemon_result env =? -1); repeat constructor.
Qed.

Lemma vendor_install_handlers (pfh : Z) :
  avoids vendor_call (install_handlers c pfh env).
Proof. unfold install_handlers. walk fail ltac:(reflexivity). Qed.

Lemma handlers_first_run (frames : list frame) (t1 t2 : list event)
    (e : event) :
  trace (run_configured program c env frames) = (t1 ++ e :: t2)%list ->
  vendor_call e = true ->
  In (Signal SIGINT) t1 /\ In (Signal SIGTERM) t1.
Proof.
  unfold run_configured. rewrite trace_bind. intros E He.
  destruct (split_after_prefix vendor_call _ _ _ _ _ E vendor_lifecycle He)
    as [t ->].
  rewrite <- app_assoc in E. apply app_inv_head in E.
  destruct (outcome (lifecycle program c env)) as [pfh | h];
    [| destruct t; discriminate].
  rewrite trace_bind in E.
  destruct (split_after_prefix vendor_call _ _ _ _ _ E
              (vendor_install_handlers pfh) He) as [t' ->].
  rewrite <- app_assoc in E. apply app_inv_head in E.
  destruct (outcome (install_handlers c pfh env)) as [u |] eqn:Eo;
    [| destruct t'; discriminate].
  rewrite (install_handlers_ret pfh u Eo).
  split; apply in_or_app; right; apply in_or_app; left; simpl; tauto.
Qed.

(** Only [lifecycle] writes the PID file. *)
Lemma lifecycle_writes :
  filter is_pidfile_write (trace (lifecycle program c env)) =
  if daemonised_with_pidfile c env
  then [PidfileWrite (pidfile_open_result env)] else [].
Proof.
  unfold lifecycle, daemonised_with_pidfile, exitAndRemovePidFile, NULL.
  destruct (isDaemon c); [| reflexivity].
  destruct (pidfile c) as [path |]; simpl.
  - destruct (pidfile_open_result env =? 0) eqn:E; simpl; [reflexivity |].
    rewrite E. destruct (daemon_result env =? -1); reflexivity.
  - destruct (daemon_result env =? -1); reflexivity.
Qed.

Lemma lifecycle_daemonised (path : string) :
  isDaemon c = true -> pidfile c = Some path ->
  pidfile_open_result env <> NULL -> daemon_result env <> -1 ->
  lifecycle program c env =
  ([PidfileOpen path 384; Daemon 0 0;
    PidfileWrite (pidfile_open_result env); Openlog program],
   Ret (pidfile_open_result env)).
Proof.
  intros Hd Hp Ho Hr. unfold lifecycle, NULL in *. rewrite Hd, Hp.
  apply Z.eqb_neq in Ho, Hr. simpl. rewrite Ho. simpl. rewrite Hr. simpl.
  rewrite Ho. reflexivity.
Qed.

Lemma writes_run (frames : list frame) :
  filter is_pidfile_write (trace (run_configured program c env frames)) =
  if daemonised_with_pidfile c env
  then [PidfileWrite (pidfile_open_result env)] else [].
Proof.
  unfold run_configured. rewrite trace_bind, filter_app, lifecycle_writes.
  destruct (outcome (lifecycle program c env)) as [pfh | h];
    [| apply app_nil_r].
  assert (H : forall A (m : M A), avoids is_pidfile_write m ->
                filter is_pidfile_write (trace m) = [])
    by (intros; now apply avoids_filter).
  rewrite H; [apply app_nil_r |].
  apply avoids_bind; [unfold install_handlers;
                      walk fail ltac:(reflexivity) | intros _].
  apply avoids_bind; [unfold open_session;
                      walk fail ltac:(reflexivity) | intros s].
  apply avoids_bind.
  - apply avoids_mirror_loop_frames. apply Forall_forall. intros f _.
    unfold mirror_frame. walk fail ltac:(reflexivity).
  - intros _. unfold teardown. walk fail ltac:(reflexivity).
Qed.

End Order.

(** X15. No call into the display library is made before both signal
    handlers are installed: in the trace of every run, each call of
    [bcm_host_init] or of a DispmanX function comes after the [signal]
    calls for SIGINT and for SIGTERM. *)
Theorem handlers_precede_display_calls (program : string)
    (opts : list option_found) (env : environment) (frames : list frame)
    (t1 t2 : list event) (e : event) :
  trace (main program opts env frames) = (t1 ++ e :: t2)%list ->
  vendor_call e = true ->
  In (Signal SIGINT) t1 /\ In (Signal SIGTERM) t1.
Proof.
  unfold main. rewrite trace_bind. intros E He.
  assert (Hp : avoids vendor_call
                 (parse_options program initial_config opts))
    by now apply avoids_parse_options.
  destruct (split_after_prefix vendor_call _ _ _ _ _ E Hp He) as [t ->].
  rewrite <- app_assoc in E. apply app_inv_head in E.
  destruct (outcome (parse_options program initial_config opts)) as [c | h];
    [| destruct t; discriminate].
  destruct (handlers_first_run program env c frames t t2 e E He) as [H1 H2].
  split; apply in_or_app; now right.
Qed.

Lemma handlers_precede_display_calls_witness :
  In (Signal SIGINT) [Signal SIGINT; Signal SIGTERM; BcmHostInit] /\
  In (Signal SIGTERM) [Signal SIGINT; Signal SIGTERM; BcmHostInit].
Proof.
  apply (handlers_precede_display_calls "raspi2raspi" []
           contended_environment []
           [Signal SIGINT; Signal SIGTERM; BcmHostInit]
           [DisplayGetInfo 1; DisplayOpen 5; DisplayGetInfo 2;
            MessageLog false 6 "copying from [%d] %dx%d to [%d] %dx%d"
              [ArgZ 0; ArgZ 1920; ArgZ 1080; ArgZ 5; ArgZ 1280; ArgZ 720];
            Malloc 3686400; ResourceCreate 1280 720; ResourceCreate 1280 720;
            UpdateStart 0; ElementAdd 5 2 10 4; UpdateSubmitSync 5]
           (DisplayOpen 0)).
  - reflexivity.
  - reflexivity.
Defined.

(** X16. The PID is written at most once in a run, and exactly when the
    program runs in daemon mode with a PID-file path and neither
    [pidfile_open] nor [daemon] fails; the handle written is the one
    [pidfile_open] returned, and the write comes after [daemon], so that it
    is made by the detached process: daemonisation is then [pidfile_open],
    [daemon], [pidfile_write], [openlog], in this order. *)
Theorem pid_written_once_after_daemon (program : string) (c : config)
    (env : environment) (frames : list frame) :
  filter is_pidfile_write (trace (run_configured program c env frames)) =
    (if daemonised_with_pidfile c env
     then [PidfileWrite (pidfile_open_result env)] else []) /\
  (forall path,
     isDaemon c = true -> pidfile c = Some path ->
     pidfile_open_result env <> NULL -> daemon_result env <> -1 ->
     lifecycle program c env =
     ([PidfileOpen path 384; Daemon 0 0;
       PidfileWrite (pidfile_open_result env); Openlog program],
      Ret (pidfile_open_result env))).
Proof.
  split; [apply writes_run | apply lifecycle_daemonised].
Qed.

Lemma pid_written_once_after_daemon_witness :
  lifecycle "raspi2raspi" (Config 10 100000 true 0 5 (Some "/tmp/x.pid"))
    sample_environment =
  ([PidfileOpen "/tmp/x.pid" 384; Daemon 0 0; PidfileWrite 77;
    Openlog "raspi2raspi"], Ret 77).
Proof.
  apply (proj2 (pid_written_once_after_daemon "raspi2raspi"
                  (Config 10 100000 true 0 5 (Some "/tmp/x.pid"))
                  sample_environment []) "/tmp/x.pid");
    (reflexivity || discriminate).
Defined.

(** ** What is not tested *)

Section Untested.

Lemma same_ending_bind {A A' B B' : Type} (m : M A) (m' : M A')
    (k : A -> M B) (k' : A' -> M B') :
  same_ending m m' -> (forall a a', same_ending (k a) (k' a')) ->
  same_ending (bind m k) (bind m' k').
Proof.
  unfold same_ending. rewrite !outcome_bind. intros Hm Hk.
  destruct (outcome m) as [a | h], (outcome m') as [a' | h'];
    try contradiction; [apply Hk | exact Hm].
Qed.

Lemma same_ending_step {A B B' : Type} (m m' : M A) (k : A -> M B)
    (k' : A -> M B') :
  outcome m = outcome m' -> (forall a, same_ending (k a) (k' a)) ->
  same_ending (bind m k) (bind m' k').
Proof.
  unfold same_ending. rewrite !outcome_bind. intros -> Hk.
  destruct (outcome m') as [a | h]; [apply Hk | reflexivity].
Qed.

Lemma same_ending_refl {A : Type} (m : M A) : same_ending m m.
Proof. unfold same_ending. now destruct (outcome m). Qed.

Variables (c : config) (pfh : Z).

Lemma same_ending_mirror_frame (s s' : session) (f : frame) :
  same_ending (mirror_frame c pfh s f) (mirror_frame c pfh s' f).
Proof.
  unfold mirror_frame.
  repeat (apply same_ending_step; [reflexivity | intros ?]).
  apply same_ending_refl.
Qed.

Lemma same_ending_mirror_loop (s s' : session) (frames : list frame)
    (run : bool) :
  same_ending (mirror_loop c pfh s run frames)
    (mirror_loop c pfh s' run frames).
Proof.
  revert run. induction frames as [| f rest IH]; intros run; simpl;
    destruct run; try apply same_ending_refl.
  apply same_ending_bind; [apply same_ending_mirror_frame | intros; apply IH].
Qed.

Lemma same_ending_open_session (env : environment) (source dest : Z) :
  same_ending (open_session c pfh (with_resource_handles env source dest))
    (open_session c pfh env).
Proof.
  unfold open_session. cbn [with_resource_handles source_display_handle
    source_get_info_result source_modeinfo dest_display_handle
    dest_get_info_result dest_modeinfo malloc_result source_resource_handle
    dest_resource_handle setup_update_handle element_handle
    setup_submit_result].
  repeat first
    [ apply same_ending_step; [reflexivity | intros ?]
    | apply same_ending_bind; [exact I | intros ? ?] ].
  exact I.
Qed.

Lemma same_ending_teardown (s s' : session) (env env' : environment) :
  same_ending (teardown c pfh s env) (teardown c pfh s' env').
Proof. unfold same_ending. now rewrite !teardown_eq. Qed.

End Untested.

(** X17. What [vc_dispmanx_resource_create] returns is never tested: how a
    run ends (whether it returns, exits and with which status, or goes on)
    is the same whatever handles the two calls return, 0 included. *)
Theorem resource_handles_are_not_tested (program : string)
    (opts : list option_found) (env : environment) (frames : list frame)
    (source dest : Z) :
  outcome (main program opts (with_resource_handles env source dest) frames)
  = outcome (main program opts env frames).
Proof.
  assert (H : same_ending
                (main program opts (with_resource_handles env source dest)
                   frames)
                (main program opts env frames)).
  { unfold main. apply same_ending_step; [reflexivity | intros c].
    unfold run_configured.
    change (lifecycle program c (with_resource_handles env source dest))
      with (lifecycle program c env).
    apply same_ending_step; [reflexivity | intros pfh].
    change (install_handlers c pfh (with_resource_handles env source dest))
      with (install_handlers c pfh env).
    apply same_ending_step; [reflexivity | intros _].
    apply same_ending_bind; [apply same_ending_open_session | intros s s'].
    change (signals_before_loop (with_resource_handles env source dest))
      with (signals_before_loop env).
    apply same_ending_bind; [apply same_ending_mirror_loop | intros _ _].
    apply same_ending_teardown. }
  unfold same_ending in H.
  destruct (outcome (main program opts
                       (with_resource_handles env source dest) frames))
    as [a | h] eqn:E1;
    destruct (outcome (main program opts env frames)) as [a' | h'] eqn:E2;
    try contradiction.
  - apply main_returns in E1, E2.
    destruct E1 as (_ & _ & _ & _ & -> & _).
    destruct E2 as (_ & _ & _ & _ & -> & _). reflexivity.
  - now subst.
Qed.
